(** * periodicity/periodogram.py: the three wrappers and what they forward

    The module [periodogram.py] holds three functions, [lombscargle], [window]
    and [wavelet].  Each one computes a little on its arguments with numpy
    ([np.diff], [np.median], a division) and calls into astropy's
    [LombScargle] or into [wavelets.WaveletAnalysis].

    The embedding keeps the two layers apart:
    - the arithmetic the wrappers do themselves is written out as Rocq
      functions over exact rationals (module [Numpy]); a Python float is
      read as the rational it denotes, plus [NaN], which [np.median] gives
      on an empty array and which the arrays the libraries answer may
      hold; what numpy makes of a [t] that is not a one-dimensional
      array of numbers is left to numpy, as a call like the others;
    - a call into astropy or wavelets is an event of type [libE]; a wrapper
      is a finite tree of such events ([prog]), and [run] executes a tree
      against any behaviour of the libraries, threading the libraries'
      state and recording every call with its answer. *)

From Stdlib Require Import List String QArith Qminmax Bool Arith Lia Sorted.
From Stdlib Require Import Lqa Permutation.
Import ListNotations.

Set Implicit Arguments.

(** ** numpy and Python float arithmetic, as far as the wrappers use them *)

Module Numpy.

(** A one-dimensional array of finite floats. *)
Definition array := list Q.

(** A Python float: a finite value or [nan]. *)
Inductive pyfloat : Type :=
| Finite (q : Q)
| NaN.

(** Same float value ([nan] is the one [nan] here; finite values up to
    their value as rationals). *)
Definition float_eq (a b : pyfloat) : Prop :=
  match a, b with
  | Finite p, Finite q => p == q
  | NaN, NaN => True
  | _, _ => False
  end.

(** What is raised by the wrappers' own expressions. *)
Inductive pyexn : Type :=
| AssertionError (msg : string)
| ZeroDivisionError (msg : string)
| ValueError (msg : string).

(** [np.diff(t)] for a one-dimensional [t]: [t[1:] - t[:-1]]. *)
Fixpoint np_diff (t : array) : array :=
  match t with
  | a :: (b :: _) as rest => (b - a) :: np_diff rest
  | _ => []
  end.

Fixpoint insert (x : Q) (l : array) : array :=
  match l with
  | [] => [x]
  | y :: l' => if Qle_bool x y then x :: l else y :: insert x l'
  end.

(** The array in increasing order ([np.median] partitions a copy so that
    the middle positions hold what they hold in the sorted array). *)
Definition np_sort (a : array) : array := fold_right insert [] a.

(** [np.median(a)]: the mean of the middle element(s) of the sorted
    array; [nan] on an empty array. *)
Definition np_median (a : array) : pyfloat :=
  let sz := List.length a in
  let part := np_sort a in
  match sz with
  | O => NaN
  | _ =>
      let index := (sz / 2)%nat in
      if Nat.even sz
      then Finite ((nth (index - 1) part 0 + nth index part 0) / 2)
      else Finite (nth index part 0)
  end.

(** Python's [a / b] on floats: a zero divisor raises, [nan] propagates. *)
Definition float_truediv (a b : pyfloat) : pyexn + pyfloat :=
  match b with
  | Finite q =>
      if Qeq_bool q 0 then inl (ZeroDivisionError "float division by zero")
      else match a with
           | Finite p => inr (Finite (p / q))
           | NaN => inr NaN
           end
  | NaN => inr NaN
  end.

(** An array as a library answers it: its elements may be [nan]. *)
Definition farray := list pyfloat.

(** numpy's [maximum] of two floats: [nan] as soon as one of them is. *)
Definition float_max (a b : pyfloat) : pyfloat :=
  match a, b with
  | Finite p, Finite q => Finite (Qmax p q)
  | _, _ => NaN
  end.

(** [a.max()]: numpy refuses an empty array, and answers [nan] when the
    array holds one. *)
Definition np_max (a : farray) : pyexn + pyfloat :=
  match a with
  | [] => inl (ValueError
            "zero-size array to reduction operation maximum which has no identity")
  | v :: rest => inr (fold_left float_max rest v)
  end.

End Numpy.
Import Numpy.

(** ** The calls into astropy and wavelets *)

(** A value that numpy broadcasts: a scalar or an array. *)
Inductive arraylike : Type :=
| Scalar (v : Q)
| Arr (a : array).

(** The same as a library answers it. *)
Inductive floatlike : Type :=
| FloatScalar (v : pyfloat)
| FloatArr (a : farray).

(** A Python value a caller may pass: nothing, a number, a string, or a
    sequence of values. *)
#[warnings="-register-all"]
Inductive pyobject : Type :=
| PyNone
| PyNumber (v : Q)
| PyString (s : string)
| PySequence (items : list pyobject).

(** What is passed as [t]: a one-dimensional array of numbers, or any
    other value (a bare number, a ragged or nested sequence, strings). *)
Inductive time_arg : Type :=
| Times (a : array)
| Malformed (o : pyobject).

Coercion Times : array >-> time_arg.

(** The arguments of [LombScargle(t, y, dy=..., normalization=...,
  fit_mean=..., center_data=...)].  A keyword the call does not pass is
  [None]; [ls_dy = None] is also Python's [dy=None]. *)
Record LombScargle_args : Type := {
ls_t : time_arg;
ls_y : arraylike;
ls_dy : option array;
ls_normalization : option string;
ls_fit_mean : option bool;
ls_center_data : option bool
}.

(** The frequency keywords of [autopower], [false_alarm_probability] and
  [false_alarm_level]; [None] is a keyword the call does not pass. *)
Record freq_kwargs : Type := {
samples_per_peak : option Q;
minimum_frequency : option Q;
maximum_frequency : option pyfloat
}.

(** The arguments of [WaveletAnalysis(data, time, dt=..., mask_coi=...,
  unbias=...)]. *)
Record WaveletAnalysis_args : Type := {
wa_data : array;
wa_time : time_arg;
wa_dt : pyfloat;
wa_mask_coi : bool;
wa_unbias : bool
}.

Section Library.

(** The libraries' objects: a [LombScargle] model, a [WaveletAnalysis]. *)
Variables LS WA : Type.

(** One call into a library, indexed by the type of what it answers.
    [numpy_median_diff o] is [float(np.median(np.diff(o)))] for an [o]
    that is not a one-dimensional array of numbers: numpy raises or
    answers as it sees fit. *)
Inductive libE : Type -> Type :=
| LombScargle_init (args : LombScargle_args) : libE LS
| autopower (ls : LS) (kw : freq_kwargs) : libE (farray * farray)
| false_alarm_probability (ls : LS) (power : pyfloat) (method : string)
    (kw : freq_kwargs) : libE pyfloat
| false_alarm_level (ls : LS) (level : arraylike) (method : string)
    (kw : freq_kwargs) : libE floatlike
| WaveletAnalysis_init (args : WaveletAnalysis_args) : libE WA
| fourier_periods (wa : WA) : libE farray
| wavelet_power (wa : WA) : libE (list farray)
| global_wavelet_spectrum (wa : WA) : libE farray
| numpy_median_diff (o : pyobject) : libE pyfloat.

(** A wrapper body: it returns, raises by itself, or calls a library and
    goes on with the answer.  There is no handler construct: the source
    has no [try]. *)
Inductive prog (R : Type) : Type :=
| Ret (r : R)
| Raise (e : pyexn)
| Call (X : Type) (c : libE X) (k : X -> prog R).

Arguments Ret {R} r.
Arguments Raise {R} e.
Arguments Call {R X} c k.

Fixpoint bind {A B : Type} (p : prog A) (f : A -> prog B) : prog B :=
  match p with
  | Ret a => f a
  | Raise e => Raise e
  | Call c k => Call c (fun x => bind (k x) f)
  end.

Definition call {X : Type} (c : libE X) : prog X := Call c (fun x => Ret x).

(** An expression of the wrapper that may raise. *)
Definition lift {A : Type} (r : pyexn + A) : prog A :=
  match r with
  | inl e => Raise e
  | inr a => Ret a
  end.

(** [assert cond, msg] (assertions enabled, the interpreter's default). *)
Definition py_assert (cond : bool) (msg : string) : prog unit :=
  if cond then Ret tt else Raise (AssertionError msg).

(** [float(np.median(np.diff(t)))]: computed for an array of numbers,
    numpy's affair for anything else. *)
Definition median_diff (t : time_arg) : prog pyfloat :=
  match t with
  | Times a => Ret (np_median (np_diff a))
  | Malformed o => call (numpy_median_diff o)
  end.

End Library.

Arguments Ret {LS WA R} r.
Arguments Raise {LS WA R} e.
Arguments Call {LS WA R X} c k.
Arguments LombScargle_init {LS WA} args.
Arguments autopower {LS WA} ls kw.
Arguments false_alarm_probability {LS WA} ls power method kw.
Arguments false_alarm_level {LS WA} ls level method kw.
Arguments WaveletAnalysis_init {LS WA} args.
Arguments fourier_periods {LS WA} wa.
Arguments wavelet_power {LS WA} wa.
Arguments global_wavelet_spectrum {LS WA} wa.
Arguments numpy_median_diff {LS WA} o.
Arguments call {LS WA X} c.
Arguments lift {LS WA A} r.
Arguments py_assert {LS WA} cond msg.
Arguments median_diff {LS WA} t.

Declare Scope prog_scope.
Delimit Scope prog_scope with prog.
Notation "x <- c ;; k" := (bind c (fun x => k))
(at level 61, c at next level, right associativity) : prog_scope.
Notation "' pat <- c ;; k" := (bind c (fun x => match x with pat => k end))
(at level 61, pat pattern, c at next level, right associativity) : prog_scope.
Notation "c ;; k" := (bind c (fun _ => k))
(at level 61, right associativity) : prog_scope.

Local Open Scope prog_scope.

(** ** The wrappers of periodogram.py *)

Section Wrappers.

Variables LS WA : Type.

(** What [lombscargle] returns: a tuple of three, four or five. *)
Inductive ls_result : Type :=
| Tuple3 (ls : LS) (f a : farray)
| Tuple4 (ls : LS) (f a : farray) (fap : pyfloat)
| Tuple5 (ls : LS) (f a : farray) (fap : pyfloat) (fal : floatlike).

(** The methods the assertion of [lombscargle] lets through. *)
Definition fap_methods : list string := ["baluev"; "bootstrap"]%string.

Definition known_method (m : string) : bool :=
  existsb (String.eqb m) fap_methods.

(** [lombscargle(t, x, dx=None, f0=0, fmax=None, n=5, fap_method=None,
    fap_level=None, psd=False)] *)
Definition lombscargle (t : time_arg) (x : array) (dx : option array) (f0 : Q)
    (fmax : option Q) (n : Q) (fap_method : option string)
    (fap_level : option arraylike) (psd : bool) : prog LS WA ls_result :=
  ls <- (if psd
         then call (LombScargle_init
                {| ls_t := t; ls_y := Arr x; ls_dy := dx;
                   ls_normalization := Some "psd"%string;
                   ls_fit_mean := None; ls_center_data := None |})
         else call (LombScargle_init
                {| ls_t := t; ls_y := Arr x; ls_dy := dx;
                   ls_normalization := None;
                   ls_fit_mean := None; ls_center_data := None |})) ;;
  fmax <- match fmax with
          | None =>
              T <- median_diff t ;;
              fs <- lift (float_truediv (Finite 1) T) ;;
              lift (float_truediv fs (Finite 2))
          | Some v => Ret (Finite v)
          end ;;
  ' (f, a) <- call (autopower ls
                {| samples_per_peak := Some n; minimum_frequency := Some f0;
                   maximum_frequency := Some fmax |}) ;;
  match fap_method with
  | Some m =>
      py_assert (known_method m) ("Unknown FAP method " ++ m) ;;
      amax <- lift (np_max a) ;;
      fap <- call (false_alarm_probability ls amax m
                {| samples_per_peak := Some n; minimum_frequency := Some f0;
                   maximum_frequency := Some fmax |}) ;;
      match fap_level with
      | Some level =>
          fal <- call (false_alarm_level ls level m
                  {| samples_per_peak := Some n; minimum_frequency := Some f0;
                     maximum_frequency := Some fmax |}) ;;
          Ret (Tuple5 ls f a fap fal)
      | None => Ret (Tuple4 ls f a fap)
      end
  | None => Ret (Tuple3 ls f a)
  end.

(** [window(t, n=5)] *)
Definition window (t : time_arg) (n : Q) : prog LS WA (farray * farray) :=
  ls <- call (LombScargle_init
          {| ls_t := t; ls_y := Scalar 1; ls_dy := None;
             ls_normalization := None;
             ls_fit_mean := Some false; ls_center_data := Some false |}) ;;
  ' (f, a) <- call (autopower ls
                {| samples_per_peak := Some n; minimum_frequency := Some 0;
                   maximum_frequency := None |}) ;;
  Ret (f, a).

(** [wavelet(t, x, pmin=0, pmax=None, n_periods=1000)] *)
Definition wavelet (t : time_arg) (x : array) (pmin : Q) (pmax : option Q)
    (n_periods : nat) : prog LS WA (WA * farray * farray * list farray) :=
  dt <- median_diff t ;;
  wa <- call (WaveletAnalysis_init
          {| wa_data := x; wa_time := t; wa_dt := dt;
             wa_mask_coi := true; wa_unbias := true |}) ;;
  periods <- call (fourier_periods wa) ;;
  wps <- call (wavelet_power wa) ;;
  gwps <- call (global_wavelet_spectrum wa) ;;
  Ret (wa, periods, gwps, wps).

(** ** Running a wrapper against the libraries *)

(** [E]: the exceptions the libraries raise; [W]: whatever state the
    libraries keep between calls (caches, a random generator). *)
Variables E W : Type.

(** The libraries' behaviour: each call answers or raises, and moves the
    state. *)
Definition handler : Type := forall X : Type, libE LS WA X -> W -> (E + X) * W.

(** How a call ends. [Raised]: by the wrapper's own code; [Propagated]: a
    library's exception, as the library raised it. *)
Inductive outcome (R : Type) : Type :=
| Returned (r : R)
| Raised (e : pyexn)
| Propagated (e : E).

(** One library call of a run, with its answer. *)
Record entry : Type := Entry {
  entry_type : Type;
  entry_call : libE LS WA entry_type;
  entry_answer : E + entry_type
}.

Variable h : handler.

Fixpoint run {R : Type} (p : prog LS WA R) (w : W)
    : outcome R * W * list entry :=
  match p with
  | Ret r => (Returned r, w, [])
  | Raise e => (Raised _ e, w, [])
  | Call c k =>
      match h c w with
      | (inl e, w') => (Propagated _ e, w', [Entry c (inl e)])
      | (inr x, w') =>
          let '(o, w'', tr) := run (k x) w' in
          (o, w'', Entry c (inr x) :: tr)
      end
  end.

Definition result_of {R : Type} (p : prog LS WA R) (w : W) : outcome R :=
  fst (fst (run p w)).

Definition state_after {R : Type} (p : prog LS WA R) (w : W) : W :=
  snd (fst (run p w)).

Definition calls_of {R : Type} (p : prog LS WA R) (w : W) : list entry :=
  snd (run p w).

End Wrappers.

Arguments lombscargle {LS WA} t x dx f0 fmax n fap_method fap_level psd.
Arguments window {LS WA} t n.
Arguments wavelet {LS WA} t x pmin pmax n_periods.
Arguments Returned {E R} r.
Arguments Raised {E R} e.
Arguments Propagated {E R} e.
Arguments Entry {LS WA E entry_type} entry_call entry_answer.

(** ** Vocabulary of the statements *)

(** Python's [a * b] on floats. *)
Definition float_mul (a b : pyfloat) : pyfloat :=
  match a, b with
  | Finite p, Finite q => Finite (p * q)
  | _, _ => NaN
  end.

(** The default maximum frequency in the specification's words:
    [1 / (2 * median(diff(t)))], half the inverse of the median sampling
    interval.  The source computes [fs = 1 / T] and then [fs / 2]. *)
Definition pseudo_nyquist (t : array) : pyexn + pyfloat :=
  float_truediv (Finite 1) (float_mul (Finite 2) (np_median (np_diff t))).

Section Vocabulary.

Variables LS WA E W : Type.

(** The entry is not an [autopower] call, or it passes a maximum frequency
    that equals [pseudo_nyquist t]. *)
Definition passes_pseudo_nyquist (t : array) (e : entry LS WA E) : Prop :=
  match entry_call e with
  | autopower _ kw =>
      exists fm fm', maximum_frequency kw = Some fm /\
                     pseudo_nyquist t = inr fm' /\ float_eq fm fm'
  | _ => True
  end.

Definition is_autopower (e : entry LS WA E) : Prop :=
  match entry_call e with
  | autopower _ _ => True
  | _ => False
  end.

Definition is_false_alarm (e : entry LS WA E) : Prop :=
  match entry_call e with
  | false_alarm_probability _ _ _ _ | false_alarm_level _ _ _ _ => True
  | _ => False
  end.

(** The entry is an [autopower] call that answered an empty power array. *)
Definition empty_power (e : entry LS WA E) : Prop :=
  match e with
  | Entry (autopower _ _) (inr (_, a)) => a = []
  | _ => False
  end.

Definition answered (e : entry LS WA E) : Prop :=
  match entry_answer e with
  | inr _ => True
  | inl _ => False
  end.


(** The arguments [lombscargle] constructs its model with. *)
Definition model_args (t : time_arg) (x : array) (dx : option array)
    (psd : bool)
    : LombScargle_args :=
  {| ls_t := t; ls_y := Arr x; ls_dy := dx;
     ls_normalization := if psd then Some "psd"%string else None;
     ls_fit_mean := None; ls_center_data := None |}.

Definition fap_kwargs (n f0 : Q) (fm : pyfloat) : freq_kwargs :=
  {| samples_per_peak := Some n; minimum_frequency := Some f0;
     maximum_frequency := Some fm |}.

(** A library none of whose calls raises. *)
Definition never_raises (h : handler LS WA E W) : Prop :=
  forall (X : Type) (c : libE LS WA X) (w : W),
    exists (x : X) (w' : W), h X c w = (inr x, w').

(** A library whose [autopower] always answers at least one frequency. *)
Definition nonempty_power (h : handler LS WA E W) : Prop :=
  forall (ls : LS) (kw : freq_kwargs) (w w' : W) (f a : farray),
    h _ (autopower ls kw) w = (inr (f, a), w') -> a <> [].

End Vocabulary.

(** ** The calls each wrapper makes *)

Section Footprints.

Variables LS WA E W : Type.

(** Every library call the body can reach, whatever the answers, is one
    that [P] lets through. *)
Inductive within (P : forall X : Type, libE LS WA X -> Prop) (R : Type)
    : prog LS WA R -> Prop :=
| within_Ret (r : R) : within P (Ret r)
| within_Raise (e : pyexn) : within P (Raise e)
| within_Call (X : Type) (c : libE LS WA X) (k : X -> prog LS WA R) :
    P X c -> (forall x : X, within P (k x)) -> within P (Call c k).

(** The calls of [window(t, n)]: the model over [t] as it was passed, and
    its [autopower]. *)
Definition window_calls (t : time_arg) (n : Q) (X : Type)
    (c : libE LS WA X) : Prop :=
  match c with
  | LombScargle_init a =>
      a = {| ls_t := t; ls_y := Scalar 1; ls_dy := None;
             ls_normalization := None;
             ls_fit_mean := Some false; ls_center_data := Some false |}
  | autopower _ kw =>
      kw = {| samples_per_peak := Some n; minimum_frequency := Some 0;
              maximum_frequency := None |}
  | _ => False
  end.

(** The calls of [wavelet(t, x, ...)]: numpy on a [t] that is not an array
    of numbers, the analysis of [x] over [t] as they were passed, and its
    three properties. *)
Definition wavelet_calls (t : time_arg) (x : array) (X : Type)
    (c : libE LS WA X) : Prop :=
  match c with
  | numpy_median_diff o => t = Malformed o
  | WaveletAnalysis_init a =>
      wa_data a = x /\ wa_time a = t /\
      wa_mask_coi a = true /\ wa_unbias a = true /\
      match t with
      | Times ts => wa_dt a = np_median (np_diff ts)
      | Malformed _ => True
      end
  | fourier_periods _ | wavelet_power _ | global_wavelet_spectrum _ => True
  | _ => False
  end.

(** The calls of [lombscargle(t, x, dx, f0, fmax, n, fap_method,
    fap_level, psd)]: the model of [t], [x], [dx] as they were passed,
    numpy on a [t] that is not an array of numbers when [fmax] is [None],
    [autopower], and the false alarm methods with the method and the level
    that were passed. *)
Definition lombscargle_calls (t : time_arg) (x : array) (dx : option array)
    (f0 : Q) (fmax : option Q) (n : Q) (fap_method : option string)
    (fap_level : option arraylike) (psd : bool) (X : Type)
    (c : libE LS WA X) : Prop :=
  let frequencies (kw : freq_kwargs) :=
    samples_per_peak kw = Some n /\ minimum_frequency kw = Some f0 /\
    match fmax with
    | Some v => maximum_frequency kw = Some (Finite v)
    | None => exists fm, maximum_frequency kw = Some fm
    end in
  match c with
  | LombScargle_init a => a = model_args t x dx psd
  | numpy_median_diff o => t = Malformed o /\ fmax = None
  | autopower _ kw => frequencies kw
  | false_alarm_probability _ _ m kw =>
      fap_method = Some m /\ known_method m = true /\ frequencies kw
  | false_alarm_level _ level m kw =>
      fap_method = Some m /\ known_method m = true /\
      fap_level = Some level /\ frequencies kw
  | _ => False
  end.

(** The answers of the calls that [P] lets through do not depend on the
    libraries' state. *)
Definition stateless_on (h : handler LS WA E W)
    (P : forall X : Type, libE LS WA X -> Prop) : Prop :=
  forall (X : Type) (c : libE LS WA X) (w w' : W),
    P X c -> fst (h X c w) = fst (h X c w').

(** The calls that [P] lets through leave the libraries' state as it
    was. *)
Definition preserving_on (h : handler LS WA E W)
    (P : forall X : Type, libE LS WA X -> Prop) : Prop :=
  forall (X : Type) (c : libE LS WA X) (w : W), P X c -> snd (h X c w) = w.

(** The calls of a run that ended on library exception [e]: every call
    answered but the last, which raised [e] and is one that [P] lets
    through. *)
Definition raised_at (P : forall X : Type, libE LS WA X -> Prop) (e : E)
    (tr : list (entry LS WA E)) : Prop :=
  exists (tr0 : list (entry LS WA E)) (X : Type) (c : libE LS WA X),
    tr = tr0 ++ [Entry c (inl e)] /\ Forall (@answered LS WA E) tr0 /\ P X c.

(** The entry is numpy's answer for the median interval of a [t] that is
    not an array of numbers, and that answer is zero. *)
Definition zero_median_answer (e : entry LS WA E) : Prop :=
  match e with
  | Entry (numpy_median_diff _) (inr T) => float_eq T (Finite 0)
  | _ => False
  end.

End Footprints.

(** Lines 49 to 52 of the source on their own: the maximum frequency
    [lombscargle] goes on with, or what computing it raises. *)
Definition default_fmax (t : array) (fmax : option Q) : pyexn + pyfloat :=
  match fmax with
  | Some v => inr (Finite v)
  | None =>
      match float_truediv (Finite 1) (np_median (np_diff t)) with
      | inl e => inl e
      | inr fs => float_truediv fs (Finite 2)
      end
  end.

(** The first division of the default, [1 / T], is a division by zero. *)
Definition divides_by_zero (t : array) : Prop :=
  exists msg, float_truediv (Finite 1) (np_median (np_diff t)) =
              inl (ZeroDivisionError msg).

(** Times in strictly increasing order. *)
Definition strictly_increasing (t : array) : Prop := Sorted Qlt t.

(** Two consecutive samples at the same time. *)
Definition repeated_times (t : array) : Prop :=
  Exists (fun d => d == 0) (np_diff t).

(** All samples at the same time. *)
Definition all_times_equal (t : array) : Prop :=
  Forall (fun d => d == 0) (np_diff t).

(** ** A sample behaviour of the libraries

    It stands in for astropy, wavelets and numpy's refusals where a
    statement is run on concrete arguments.  A model is the record of its constructor's
    arguments; the state is the seed of the random generator that the
    bootstrap method draws from. *)

Module Sample.

Definition LS : Type := LombScargle_args.
Definition WA : Type := WaveletAnalysis_args.
Definition E : Type := string.
Definition W : Type := nat.

(** [LombScargle(...)]: the times have to be one-dimensional, and the
    signal has to broadcast against them. *)
Definition init (a : LombScargle_args) : E + LS :=
  match ls_t a, ls_y a with
  | Malformed _, _ =>
      inl "ValueError: Inputs (t, y, dy) must be 1-dimensional"%string
  | Times _, Scalar _ => inr a
  | Times t, Arr y =>
      if Nat.eqb (List.length t) (List.length y) then inr a
      else inl "ValueError: shape mismatch"%string
  end.

(** A grid of two frequencies from the minimum to the maximum, empty when
    the maximum lies below the minimum. *)
Definition grid (kw : freq_kwargs) : farray :=
  let lo := match minimum_frequency kw with Some v => v | None => 0 end in
  match maximum_frequency kw with
  | Some (Finite hi) =>
      if Qle_bool lo hi then [Finite lo; Finite hi] else []
  | _ => [Finite lo; Finite (lo + 1)]
  end.

(** The level asked for, as the level answered. *)
Definition as_floatlike (v : arraylike) : floatlike :=
  match v with
  | Scalar q => FloatScalar (Finite q)
  | Arr a => FloatArr (map Finite a)
  end.

(** numpy on a [t] that is not an array of numbers: [np.diff] refuses a
    bare number, and cannot subtract anything else. *)
Definition median_diff_of (o : pyobject) : E + pyfloat :=
  match o with
  | PyNumber _ =>
      inl "ValueError: diff requires input that is at least one dimensional"%string
  | _ => inl "TypeError: unsupported operand type(s) for -"%string
  end.

Definition lib : handler LS WA E W :=
  fun X c =>
    match c in libE _ _ X return W -> (E + X) * W with
    | LombScargle_init a => fun w => (init a, w)
    | autopower _ kw => fun w =>
        (inr (grid kw, map (fun _ => Finite 1) (grid kw)), w)
    | false_alarm_probability _ _ m _ => fun w =>
        if String.eqb m "bootstrap"
        then (inr (Finite (1 # Pos.of_succ_nat w)), S w)
        else (inr (Finite (1 # 2)), w)
    | false_alarm_level _ level _ _ => fun w => (inr (as_floatlike level), w)
    | WaveletAnalysis_init a => fun w => (inr a, w)
    | fourier_periods wa => fun w =>
        (inr (map (fun _ => Finite 1) (wa_data wa)), w)
    | wavelet_power wa => fun w => (inr [map Finite (wa_data wa)], w)
    | global_wavelet_spectrum wa => fun w => (inr (map Finite (wa_data wa)), w)
    | numpy_median_diff o => fun w => (median_diff_of o, w)
    end.

End Sample.

(** ** Vocabulary of the further properties *)

Section CallVocabulary.

Variables LS WA E : Type.

(** The entry is not an [autopower] call, or it passes a maximum frequency
    that satisfies [P]. *)
Definition autopower_fmax (P : pyfloat -> Prop) (e : entry LS WA E) : Prop :=
  match entry_call e with
  | autopower _ kw => exists fm, maximum_frequency kw = Some fm /\ P fm
  | _ => True
  end.

(** The entry is not a [WaveletAnalysis] construction, or its [dt]
    satisfies [P]. *)
Definition analysis_dt (P : pyfloat -> Prop) (e : entry LS WA E) : Prop :=
  match entry_call e with
  | WaveletAnalysis_init a => P (wa_dt a)
  | _ => True
  end.

(** The entry is not a false alarm call, or its model, method and frequency
    keywords satisfy [P]. *)
Definition on_false_alarm (P : LS -> string -> freq_kwargs -> Prop)
    (e : entry LS WA E) : Prop :=
  match entry_call e with
  | false_alarm_probability ls _ m kw | false_alarm_level ls _ m kw => P ls m kw
  | _ => True
  end.

(** The entry is not a [false_alarm_probability] call, or its model, power
    and frequency keywords satisfy [P]. *)
Definition on_probability (P : LS -> pyfloat -> freq_kwargs -> Prop)
    (e : entry LS WA E) : Prop :=
  match entry_call e with
  | false_alarm_probability ls power _ kw => P ls power kw
  | _ => True
  end.

(** The entry is not a [false_alarm_level] call, or its level satisfies
    [P]. *)
Definition on_level (P : arraylike -> Prop) (e : entry LS WA E) : Prop :=
  match entry_call e with
  | false_alarm_level _ level _ _ => P level
  | _ => True
  end.

(** The entry is a constructor call, or its frequency keywords satisfy
    [P]. *)
Definition on_frequency_kwargs (P : freq_kwargs -> Prop) (e : entry LS WA E)
    : Prop :=
  match entry_call e with
  | autopower _ kw | false_alarm_probability _ _ _ kw
  | false_alarm_level _ _ _ kw => P kw
  | _ => True
  end.

End CallVocabulary.

(** Times in strictly decreasing order. *)
Definition strictly_decreasing (t : array) : Prop :=
  Sorted (fun a b => b < a) t.

(** The same samples with the time origin moved by [c]. *)
Definition shift_times (c : Q) (t : array) : array := map (fun v => v + c) t.

(** The same samples in a time unit [c] times smaller. *)
Definition scale_times (c : Q) (t : array) : array := map (Qmult c) t.

(** Two floats of the same value, the second [c] times the first. *)
Definition float_scaled (c : Q) (a b : pyfloat) : Prop :=
  match a, b with
  | Finite p, Finite q => q == c * p
  | NaN, NaN => True
  | _, _ => False
  end.

(** The float is a number, and at most [q]. *)
Definition at_most (q : Q) (u : pyfloat) : Prop :=
  match u with
  | Finite v => v <= q
  | NaN => False
  end.

(** How many elements of [a] are at most [T], and how many at least. *)
Definition count_le (T : Q) (a : array) : nat :=
  List.length (filter (fun v => Qle_bool v T) a).

Definition count_ge (T : Q) (a : array) : nat :=
  List.length (filter (fun v => Qle_bool T v) a).

(** * Properties *)

(** ** The median of the sampling intervals *)

Section MedianFacts.

Local Open Scope Q_scope.

Lemma insert_length (x : Q) (l : array) :
  List.length (insert x l) = S (List.length l).
Proof.
  induction l as [|y l IH]; simpl; [reflexivity|].
  destruct (Qle_bool x y); simpl; [reflexivity|now rewrite IH].
Qed.

Lemma insert_Forall (P : Q -> Prop) (x : Q) (l : array) :
  P x -> Forall P l -> Forall P (insert x l).
Proof.
  intros Hx Hl. induction Hl as [|y l Hy Hl IH]; simpl.
  - now constructor.
  - destruct (Qle_bool x y); repeat constructor; assumption.
Qed.

Lemma np_sort_length (a : array) : List.length (np_sort a) = List.length a.
Proof.
  induction a as [|x a IH]; simpl; [reflexivity|].
  now rewrite insert_length, IH.
Qed.

Lemma np_sort_Forall (P : Q -> Prop) (a : array) :
  Forall P a -> Forall P (np_sort a).
Proof.
  induction 1 as [|x a Hx Ha IH]; simpl; [constructor|].
  now apply insert_Forall.
Qed.

Lemma Forall_nth_lt (P : Q -> Prop) (l : array) (i : nat) :
  Forall P l -> (i < List.length l)%nat -> P (nth i l 0).
Proof.
  intros Hl Hi. rewrite Forall_forall in Hl. apply Hl. now apply nth_In.
Qed.

(** The median of a non-empty array lies wherever all its elements lie,
    as long as the place is closed under the mean of two. *)
Lemma np_median_Forall (P : Q -> Prop) (a : array) :
  (forall u v, P u -> P v -> P ((u + v) / 2)) ->
  Forall P a -> a <> [] ->
  exists T, np_median a = Finite T /\ P T.
Proof.
  intros Hmean Ha Hne.
  assert (Hs : Forall P (np_sort a)) by now apply np_sort_Forall.
  assert (Hlen : List.length (np_sort a) = List.length a) by apply np_sort_length.
  unfold np_median.
  destruct (List.length a) as [|k] eqn:Hk.
  - destruct a; [now elim Hne|discriminate].
  - assert (Hhalf : (S k / 2 < S k)%nat) by (apply Nat.div_lt; lia).
    destruct (Nat.even (S k)); eexists; split; try reflexivity.
    + apply Hmean; apply Forall_nth_lt; try assumption; lia.
    + apply Forall_nth_lt; [assumption|lia].
Qed.

Lemma np_diff_length (t : array) :
  List.length (np_diff t) = (List.length t - 1)%nat.
Proof.
  induction t as [|a [|b t] IH]; try reflexivity.
  change (np_diff (a :: b :: t)) with ((b - a) :: np_diff (b :: t)).
  simpl List.length in *. rewrite IH. lia.
Qed.

Lemma np_diff_short (t : array) :
  (List.length t < 2)%nat -> np_diff t = [].
Proof.
  destruct t as [|a [|b t]]; simpl; intros H; try reflexivity; lia.
Qed.

Lemma np_diff_nonempty (t : array) :
  (2 <= List.length t)%nat -> np_diff t <> [].
Proof.
  destruct t as [|a [|b t]]; simpl; intros H; try lia; discriminate.
Qed.

Lemma np_diff_increasing (t : array) :
  strictly_increasing t -> Forall (fun d => 0 < d) (np_diff t).
Proof.
  unfold strictly_increasing.
  induction t as [|a [|b t] IH]; intros Hs; try constructor.
  - inversion Hs as [|? ? Hs' Hhd]; subst.
    inversion Hhd as [|? ? Hab]; subst.
    unfold Qminus. rewrite <- Qlt_minus_iff. exact Hab.
  - apply IH. now inversion Hs.
Qed.

Lemma mean_pos (u v : Q) : 0 < u -> 0 < v -> 0 < (u + v) / 2.
Proof.
  intros Hu Hv. apply Qlt_shift_div_l; [reflexivity|].
  rewrite Qmult_0_l. rewrite <- (Qplus_0_l 0). now apply Qplus_lt_le_compat, Qlt_le_weak.
Qed.

Lemma mean_zero (u v : Q) : u == 0 -> v == 0 -> (u + v) / 2 == 0.
Proof. intros -> ->. reflexivity. Qed.

Lemma Qeq_bool_pos (q : Q) : 0 < q -> Qeq_bool q 0 = false.
Proof.
  intros Hq. destruct (Qeq_bool q 0) eqn:Heq; [|reflexivity].
  apply Qeq_bool_eq in Heq. rewrite Heq in Hq. now apply Qlt_irrefl in Hq.
Qed.

(** Which first division raises: exactly the one by a zero median. *)
Lemma float_truediv_zero (a T : pyfloat) :
  (exists msg, float_truediv a T = inl (ZeroDivisionError msg)) <->
  float_eq T (Finite 0).
Proof.
  destruct T as [q|]; simpl.
  - destruct (Qeq_bool q 0) eqn:Hq.
    + split; [intros _; now apply Qeq_bool_eq|intros _; now eexists].
    + split.
      * intros [msg H]. destruct a; discriminate.
      * intros H. apply Qeq_eq_bool in H. congruence.
  - split; [intros [msg H]; discriminate|intros []].
Qed.

Lemma float_truediv_inl (a T : pyfloat) (e : pyexn) :
  float_truediv a T = inl e ->
  e = ZeroDivisionError "float division by zero" /\ float_eq T (Finite 0).
Proof.
  destruct T as [q|]; simpl; [|discriminate].
  destruct (Qeq_bool q 0) eqn:Hq.
  - intros [= <-]. split; [reflexivity|now apply Qeq_bool_eq].
  - destruct a; discriminate.
Qed.

(** Halving never raises. *)
Lemma float_truediv_two (a : pyfloat) :
  float_truediv a (Finite 2) =
  inr (match a with Finite p => Finite (p / 2) | NaN => NaN end).
Proof. destruct a; reflexivity. Qed.

End MedianFacts.

(** C9, amended: in [lombscargle] with [fmax=None] the default divides by
    [T = median(diff(t))].  For strictly increasing [t] with at least two
    samples, [T > 0] and both divisions ([1 / T], then [fs / 2]) are
    defined.  With fewer than two samples the difference array is empty
    (and the median is [nan]).  The first division is a division by zero
    exactly when [T] is zero, as it is when all (two or more) samples are
    at the same time; repeated times alone do not make it so. *)
Theorem default_fmax_divisions (t : array) :
  (strictly_increasing t -> (2 <= List.length t)%nat ->
   exists T, np_median (np_diff t) = Finite T /\ 0 < T /\
     float_truediv (Finite 1) (Finite T) = inr (Finite (1 / T)) /\
     float_truediv (Finite (1 / T)) (Finite 2) = inr (Finite (1 / T / 2)) /\
     default_fmax t None = inr (Finite (1 / T / 2))) /\
  ((List.length t < 2)%nat ->
   np_diff t = [] /\ np_median (np_diff t) = NaN /\ default_fmax t None = inr NaN) /\
  (divides_by_zero t <-> float_eq (np_median (np_diff t)) (Finite 0)) /\
  (all_times_equal t -> (2 <= List.length t)%nat ->
   divides_by_zero t /\
   default_fmax t None = inl (ZeroDivisionError "float division by zero")).
Proof.
  split; [|split; [|split]].
  - intros Hinc Hlen.
    destruct (np_median_Forall (P := fun d => 0 < d) (a := np_diff t))
      as (T & HT & Hpos).
    + exact mean_pos.
    + now apply np_diff_increasing.
    + now apply np_diff_nonempty.
    + exists T. unfold default_fmax. rewrite HT. simpl.
      rewrite (Qeq_bool_pos Hpos). repeat split; try reflexivity. exact Hpos.
  - intros Hlen. unfold default_fmax. rewrite (np_diff_short t Hlen).
    repeat split.
  - apply float_truediv_zero.
  - intros Heq Hlen.
    destruct (np_median_Forall (P := fun d => d == 0) (a := np_diff t))
      as (T & HT & Hz).
    + exact mean_zero.
    + exact Heq.
    + now apply np_diff_nonempty.
    + unfold divides_by_zero, default_fmax. rewrite HT. simpl.
      apply Qeq_eq_bool in Hz. rewrite Hz. split; [now eexists|reflexivity].
Qed.

(** The four parts of [default_fmax_divisions] on concrete time arrays. *)
Lemma default_fmax_divisions_witness :
  (exists T, np_median (np_diff [0; 1; 3]) = Finite T /\ 0 < T) /\
  np_diff [7] = [] /\
  divides_by_zero [4; 4; 4].
Proof.
  split; [|split].
  - destruct (proj1 (default_fmax_divisions [0; 1; 3])) as (T & HT & Hpos & _).
    + repeat constructor.
    + simpl. lia.
    + exists T. split; assumption.
  - apply (proj1 (proj2 (default_fmax_divisions [7]))). simpl. lia.
  - apply (proj2 (proj2 (proj2 (default_fmax_divisions [4; 4; 4])))).
    + repeat constructor.
    + simpl. lia.
Defined.

(** C9 as written fails: the times [0, 0, 1, 2, 3] repeat a sample and are
    five, yet the median interval is 1, nothing divides by zero and the
    difference array is not empty. *)
Lemma default_fmax_repeated_times_counterexample :
  ~ (forall t : array,
       ((List.length t < 2)%nat \/ repeated_times t) ->
       divides_by_zero t \/ np_diff t = []).
Proof.
  intros H. destruct (H [0; 0; 1; 2; 3]) as [[msg Hdiv]|Hempty].
  - right. left. reflexivity.
  - vm_compute in Hdiv. discriminate.
  - discriminate.
Qed.

(** The source's two divisions, [1 / T] and then [fs / 2], against the
    specification's [1 / (2 * T)]: one raises when the other does, and
    they give the same float otherwise. *)
Lemma default_fmax_refines (t : array) :
  match default_fmax t None, pseudo_nyquist t with
  | inr fm, inr fm' => float_eq fm fm'
  | inl e, inl e' => e = e'
  | _, _ => False
  end.
Proof.
  unfold default_fmax, pseudo_nyquist.
  destruct (np_median (np_diff t)) as [T|]; simpl; [|exact I].
  destruct (Qeq_bool T 0) eqn:HT.
  - apply Qeq_bool_eq in HT.
    assert (H2 : Qeq_bool (2 * T) 0 = true)
      by (apply Qeq_eq_bool; rewrite HT; reflexivity).
    rewrite H2. reflexivity.
  - apply Qeq_bool_neq in HT.
    assert (H2 : Qeq_bool (2 * T) 0 = false).
    { destruct (Qeq_bool (2 * T) 0) eqn:H2; [|reflexivity].
      apply Qeq_bool_eq in H2. elim HT.
      setoid_replace T with ((2 * T) / 2) by (field; discriminate).
      rewrite H2. reflexivity. }
    rewrite H2. simpl. field. exact HT.
Qed.

(** ** Runs of any wrapper body *)

Section RunFacts.

Variables LS WA E W : Type.
Variable h : handler LS WA E W.

(** Sequencing: the second part runs from the state the first one left,
    and only when the first one returned. *)
Lemma run_bind (A B : Type) (p : prog LS WA A) (f : A -> prog LS WA B) (w : W) :
  run h (bind p f) w =
  match run h p w with
  | (Returned a, w', tr) =>
      let '(o, w'', tr') := run h (f a) w' in (o, w'', tr ++ tr')
  | (Raised e, w', tr) => (Raised e, w', tr)
  | (Propagated e, w', tr) => (Propagated e, w', tr)
  end.
Proof.
  revert w. induction p as [a|e|X c k IH]; intros w; simpl.
  - destruct (run h (f a) w) as [[o w'] tr]. reflexivity.
  - reflexivity.
  - destruct (h c w) as [[e|x] w']; [reflexivity|].
    rewrite IH. destruct (run h (k x) w') as [[[a|e|e] w''] tr]; try reflexivity.
    destruct (run h (f a) w'') as [[o w3] tr']. reflexivity.
Qed.


(** Sequencing stays within what its parts stay within. *)
Lemma within_bind (P : forall X : Type, libE LS WA X -> Prop) (A B : Type)
    (p : prog LS WA A) (f : A -> prog LS WA B) :
  within P p -> (forall a, within P (f a)) -> within P (bind p f).
Proof.
  intros Hp Hf. induction Hp as [a|e|X c k HP Hk IH]; simpl.
  - apply Hf.
  - constructor.
  - constructor; assumption.
Qed.

(** A run that ends on a library's exception ends at one of the calls the
    body stays within. *)
Lemma run_within (P : forall X : Type, libE LS WA X -> Prop) (R : Type)
    (p : prog LS WA R) (w : W) :
  within P p ->
  match result_of h p w with
  | Propagated e => raised_at P e (calls_of h p w)
  | _ => True
  end.
Proof.
  unfold result_of, calls_of. intros Hp. revert w.
  induction Hp as [r|e|X c k HP Hk IH]; intros w; simpl; try exact I.
  destruct (h c w) as [[e|x] w'] eqn:Hc; simpl.
  - exists [], X, c. repeat split; [constructor|exact HP].
  - specialize (IH x w').
    destruct (run h (k x) w') as [[[r|e|e] w''] tr]; simpl in *; try exact I.
    destruct IH as (tr0 & Y & c' & -> & Hans & HP').
    exists (Entry c (inr x) :: tr0), Y, c'. repeat split; [|exact HP'].
    constructor; [exact I|exact Hans].
Qed.

(** When the answers of the calls a body stays within do not depend on the
    state, neither does its result. *)
Lemma run_stateless (P : forall X : Type, libE LS WA X -> Prop) (R : Type)
    (p : prog LS WA R) :
  within P p -> stateless_on h P ->
  forall w w' : W, result_of h p w = result_of h p w'.
Proof.
  unfold result_of. intros Hp Hh.
  induction Hp as [r|e|X c k HP Hk IH]; intros w w'; simpl; try reflexivity.
  pose proof (Hh X c w w' HP) as Hans.
  destruct (h c w) as [[e|x] w1]; destruct (h c w') as [[e'|x'] w1'];
    simpl in Hans; try discriminate.
  - now injection Hans as ->.
  - injection Hans as ->. specialize (IH x' w1 w1').
    destruct (run h (k x') w1) as [[o1 s1] tr1];
      destruct (run h (k x') w1') as [[o2 s2] tr2]; simpl in *. exact IH.
Qed.

(** When the calls a body stays within leave the state as it was, so does
    the body. *)
Lemma run_preserving (P : forall X : Type, libE LS WA X -> Prop) (R : Type)
    (p : prog LS WA R) :
  within P p -> preserving_on h P ->
  forall w : W, state_after h p w = w.
Proof.
  unfold state_after. intros Hp Hh.
  induction Hp as [r|e|X c k HP Hk IH]; intros w; simpl; try reflexivity.
  pose proof (Hh X c w HP) as Hw.
  destruct (h c w) as [[e|x] w1]; simpl in Hw; subst; [reflexivity|].
  specialize (IH x w).
  destruct (run h (k x) w) as [[o1 s1] tr1]; simpl in *. exact IH.
Qed.

End RunFacts.

(** ** Runs of [lombscargle], [window] and [wavelet] *)

(** One step of a run: reduce up to the next thing that decides how the
    run goes on (a library's answer, a division, the assertion, an optional
    argument) and split on it. *)
Ltac exec_step h :=
  cbn [run bind call lift py_assert median_diff];
  match goal with
  | |- context [@h ?X ?c ?w] => destruct (@h X c w) as [[?e|?ans] ?w] eqn:?Hcall
  | |- context [float_truediv ?a ?b] =>
      destruct (float_truediv a b) as [?ex|?v] eqn:?Hdiv
  | |- context [known_method ?m] => destruct (known_method m) eqn:?Hknown
  | |- context [np_max ?a] => destruct (np_max a) as [?ex|?amax] eqn:?Hmax
  | |- context [match ?o with Some _ => _ | None => _ end] => is_var o; destruct o
  | |- context [match ?o with (_, _) => _ end] => is_var o; destruct o as [?f ?a]
  | |- context [if ?b then _ else _] => is_var b; destruct b
  end.

Ltac exec h :=
  repeat exec_step h; cbn [run bind call lift py_assert median_diff fst snd].

(** Splits the run of [lombscargle] into its cases, after
    [lombscargle_run]. *)
Ltac run_cases h :=
  cbv zeta;
  repeat match goal with
    | |- context [@h ?X ?c ?w] =>
        destruct (@h X c w) as [[?e|?ans] ?w] eqn:?Hcall
    | |- context [default_fmax ?t ?f] =>
        destruct (default_fmax t f) as [?ex|?fm] eqn:?Hfmax
    | |- context [if known_method ?m then _ else _] =>
        destruct (known_method m) eqn:?Hknown
    | |- context [np_max ?a] => destruct (np_max a) as [?ex|?amax] eqn:?Hmax
    | |- context [match ?o with Some _ => _ | None => _ end] =>
        is_var o; destruct o
    | |- context [match ?o with (_, _) => _ end] =>
        is_var o; destruct o as [?f ?a]
    end;
  cbn [fst snd app].

Ltac each_entry :=
  repeat first [apply Forall_nil | apply Forall_cons]; cbn; try exact I.

Section WrapperRuns.

Variables LS WA E W : Type.
Variable h : handler LS WA E W.

(** The run of [lombscargle], call by call. *)
Lemma lombscargle_run (w : W) (t x : array) (dx : option array) (f0 : Q)
    (fmax : option Q) (n : Q) (fap_method : option string)
    (fap_level : option arraylike) (psd : bool) :
  run h (lombscargle t x dx f0 fmax n fap_method fap_level psd) w =
  let c0 := LombScargle_init (model_args t x dx psd) in
  match h c0 w with
  | (inl e, w1) => (Propagated e, w1, [Entry c0 (inl e)])
  | (inr ls, w1) =>
  match default_fmax t fmax with
  | inl ex => (Raised ex, w1, [Entry c0 (inr ls)])
  | inr fm =>
  let kw := fap_kwargs n f0 fm in
  let c1 := autopower ls kw in
  match h c1 w1 with
  | (inl e, w2) => (Propagated e, w2, [Entry c0 (inr ls); Entry c1 (inl e)])
  | (inr (f, a), w2) =>
  let tr := [Entry c0 (inr ls); Entry c1 (inr (f, a))] in
  match fap_method with
  | None => (Returned (Tuple3 ls f a), w2, tr)
  | Some m =>
  if known_method m then
    match np_max a with
    | inl ex => (Raised ex, w2, tr)
    | inr amax =>
    let c2 := false_alarm_probability ls amax m kw in
    match h c2 w2 with
    | (inl e, w3) => (Propagated e, w3, tr ++ [Entry c2 (inl e)])
    | (inr fap, w3) =>
    match fap_level with
    | None => (Returned (Tuple4 ls f a fap), w3, tr ++ [Entry c2 (inr fap)])
    | Some level =>
    let c3 := false_alarm_level ls level m kw in
    match h c3 w3 with
    | (inl e, w4) =>
        (Propagated e, w4, tr ++ [Entry c2 (inr fap); Entry c3 (inl e)])
    | (inr fal, w4) =>
        (Returned (Tuple5 ls f a fap fal), w4,
         tr ++ [Entry c2 (inr fap); Entry c3 (inr fal)])
    end
    end
    end
    end
  else (Raised (AssertionError ("Unknown FAP method " ++ m)), w2, tr)
  end
  end
  end
  end.
Proof.
  unfold lombscargle, default_fmax, model_args, fap_kwargs.
  destruct psd; cbv zeta; exec h; reflexivity.
Qed.


Lemma default_fmax_inl (t : array) (fmax : option Q) (ex : pyexn) :
  default_fmax t fmax = inl ex ->
  fmax = None /\ ex = ZeroDivisionError "float division by zero" /\
  float_eq (np_median (np_diff t)) (Finite 0).
Proof.
  unfold default_fmax. destruct fmax as [v|]; [discriminate|].
  destruct (float_truediv (Finite 1) (np_median (np_diff t))) as [e|fs] eqn:Hdiv.
  - intros [= <-]. split; [reflexivity|]. now apply float_truediv_inl in Hdiv.
  - rewrite float_truediv_two. discriminate.
Qed.

(** C1: with [fmax=None], whatever maximum frequency [lombscargle] passes
    to [autopower] equals [1 / (2 * median(diff(t)))]; and it does call
    [autopower] once the model is constructed, unless the median interval
    is zero. *)
Theorem lombscargle_default_fmax (w : W) (t x : array) (dx : option array)
    (f0 n : Q) (fap_method : option string) (fap_level : option arraylike)
    (psd : bool) :
  let calls :=
    calls_of h (lombscargle t x dx f0 None n fap_method fap_level psd) w in
  Forall (passes_pseudo_nyquist t) calls /\
  (forall (ls : LS) (w1 : W),
     h (LombScargle_init (model_args t x dx psd)) w = (inr ls, w1) ->
     ~ float_eq (np_median (np_diff t)) (Finite 0) ->
     Exists (@is_autopower LS WA E) calls).
Proof.
  cbv zeta. unfold calls_of. rewrite lombscargle_run.
  pose proof (default_fmax_refines t) as Href.
  split.
  - run_cases h; each_entry.
    all: destruct (pseudo_nyquist t) as [e'|fm'] eqn:Hpn; [contradiction|].
    all: exists fm, fm'; repeat split; assumption.
  - intros ls w1 Hinit Hnz. cbv zeta. rewrite Hinit.
    destruct (default_fmax t None) as [ex|fm] eqn:Hfmax.
    + elim Hnz. now apply default_fmax_inl in Hfmax.
    + run_cases h; right; left; exact I.
Qed.


(** C4: what [lombscargle] returns is [(ls, f, a)] when [fap_method] is
    [None], whatever [fap_level] is; [(ls, f, a, fap)] when [fap_method]
    is a known method and [fap_level] is [None]; [(ls, f, a, fap, fal)]
    when both are given.  [ls] is the constructed model, [(f, a)] what
    [autopower] answered, [fap] and [fal] what the two false alarm calls
    answered.  And it does return when no library call raises, the maximum
    frequency is computed, the method is a known one and the power array
    is not empty. *)
Theorem lombscargle_result_shape (w : W) (t x : array) (dx : option array)
    (f0 : Q) (fmax : option Q) (n : Q) (fap_method : option string)
    (fap_level : option arraylike) (psd : bool) :
  let p := lombscargle t x dx f0 fmax n fap_method fap_level psd in
  let calls := calls_of h p w in
  (forall r, result_of h p w = Returned r ->
     exists (ls : LS) (f a : farray) (kw : freq_kwargs),
       In (Entry (LombScargle_init (model_args t x dx psd)) (inr ls)) calls /\
       In (Entry (autopower ls kw) (inr (f, a))) calls /\
       match fap_method, fap_level with
       | None, _ => r = Tuple3 ls f a
       | Some m, None =>
           known_method m = true /\
           exists (amax fap : pyfloat),
             np_max a = inr amax /\
             In (Entry (false_alarm_probability ls amax m kw) (inr fap)) calls /\
             r = Tuple4 ls f a fap
       | Some m, Some level =>
           known_method m = true /\
           exists (amax fap : pyfloat) (fal : floatlike),
             np_max a = inr amax /\
             In (Entry (false_alarm_probability ls amax m kw) (inr fap)) calls /\
             In (Entry (false_alarm_level ls level m kw) (inr fal)) calls /\
             r = Tuple5 ls f a fap fal
       end) /\
  (never_raises h -> nonempty_power h ->
   (exists fm, default_fmax t fmax = inr fm) ->
   (forall m, fap_method = Some m -> known_method m = true) ->
   exists r, result_of h p w = Returned r).
Proof.
  cbv zeta. unfold result_of, calls_of. rewrite lombscargle_run. split.
  - intros r. run_cases h; intros [= <-];
      eexists _, _, _, _; (split; [left; reflexivity|]);
      (split; [right; left; reflexivity|]); try reflexivity;
      (split; [reflexivity|]).
    + eexists _, _, _. split; [eassumption|]. simpl. intuition.
    + eexists _, _. split; [eassumption|]. simpl. intuition.
  - intros Hlib Hpow [fm Hfm] Hm. cbv zeta. rewrite Hfm.
    destruct (Hlib _ (LombScargle_init (model_args t x dx psd)) w)
      as (ls & w1 & ->).
    destruct (Hlib _ (autopower ls (fap_kwargs n f0 fm)) w1)
      as ([f a] & w2 & Hauto).
    rewrite Hauto. destruct fap_method as [m|]; [|now eexists].
    rewrite (Hm m eq_refl).
    destruct (np_max a) as [ex|amax] eqn:Hmax.
    { destruct a; [|discriminate]. now elim (Hpow _ _ _ _ _ _ Hauto). }
    destruct (Hlib _ (false_alarm_probability ls amax m (fap_kwargs n f0 fm)) w2)
      as (fap & w3 & ->).
    destruct fap_level as [level|]; [|now eexists].
    destruct (Hlib _ (false_alarm_level ls level m (fap_kwargs n f0 fm)) w3)
      as (fal & w4 & ->).
    now eexists.
Qed.

(** The run of [window], call by call. *)
Lemma window_run (w : W) (t : array) (n : Q) :
  run h (window t n) w =
  let c0 := LombScargle_init
              {| ls_t := t; ls_y := Scalar 1; ls_dy := None;
                 ls_normalization := None;
                 ls_fit_mean := Some false; ls_center_data := Some false |} in
  match h c0 w with
  | (inl e, w1) => (Propagated e, w1, [Entry c0 (inl e)])
  | (inr ls, w1) =>
      let c1 := autopower ls
                  {| samples_per_peak := Some n; minimum_frequency := Some 0;
                     maximum_frequency := None |} in
      match h c1 w1 with
      | (inl e, w2) =>
          (Propagated e, w2, [Entry c0 (inr ls); Entry c1 (inl e)])
      | (inr (f, a), w2) =>
          (Returned (f, a), w2, [Entry c0 (inr ls); Entry c1 (inr (f, a))])
      end
  end.
Proof. unfold window. cbv zeta. exec h; reflexivity. Qed.

(** The run of [wavelet], call by call. *)
Lemma wavelet_run (w : W) (t x : array) (pmin : Q) (pmax : option Q)
    (n_periods : nat) :
  run h (wavelet t x pmin pmax n_periods) w =
  let c0 := WaveletAnalysis_init
              {| wa_data := x; wa_time := t; wa_dt := np_median (np_diff t);
                 wa_mask_coi := true; wa_unbias := true |} in
  match h c0 w with
  | (inl e, w1) => (Propagated e, w1, [Entry c0 (inl e)])
  | (inr wa, w1) =>
  match h (fourier_periods wa) w1 with
  | (inl e, w2) =>
      (Propagated e, w2, [Entry c0 (inr wa); Entry (fourier_periods wa) (inl e)])
  | (inr periods, w2) =>
  match h (wavelet_power wa) w2 with
  | (inl e, w3) =>
      (Propagated e, w3,
       [Entry c0 (inr wa); Entry (fourier_periods wa) (inr periods);
        Entry (wavelet_power wa) (inl e)])
  | (inr wps, w3) =>
  match h (global_wavelet_spectrum wa) w3 with
  | (inl e, w4) =>
      (Propagated e, w4,
       [Entry c0 (inr wa); Entry (fourier_periods wa) (inr periods);
        Entry (wavelet_power wa) (inr wps);
        Entry (global_wavelet_spectrum wa) (inl e)])
  | (inr gwps, w4) =>
      (Returned (wa, periods, gwps, wps), w4,
       [Entry c0 (inr wa); Entry (fourier_periods wa) (inr periods);
        Entry (wavelet_power wa) (inr wps);
        Entry (global_wavelet_spectrum wa) (inr gwps)])
  end
  end
  end
  end.
Proof. unfold wavelet. cbv zeta. exec h; reflexivity. Qed.

(** C5: [psd=True] constructs the model with [normalization='psd'],
    [psd=False] constructs it without a [normalization] keyword, so with
    the library's default; everything after the construction is the same
    function of the model in both cases. *)
Theorem lombscargle_psd_normalization (t x : array) (dx : option array)
    (f0 : Q) (fmax : option Q) (n : Q) (fap_method : option string)
    (fap_level : option arraylike) :
  exists k : LS -> prog LS WA (ls_result LS),
    forall psd : bool,
      lombscargle t x dx f0 fmax n fap_method fap_level psd =
      Call (LombScargle_init
              {| ls_t := t; ls_y := Arr x; ls_dy := dx;
                 ls_normalization := if psd then Some "psd"%string else None;
                 ls_fit_mean := None; ls_center_data := None |}) k.
Proof.
  unfold lombscargle. eexists. intros psd.
  destruct psd; cbn [bind call]; reflexivity.
Qed.

(** C6: [window(t, n)] constructs a [LombScargle] model over [t] with the
    constant signal 1, [fit_mean=False] and [center_data=False], calls its
    [autopower] with [minimum_frequency=0] and [samples_per_peak=n], and
    returns the pair [(f, a)] that call answers. *)
Theorem window_sampling_comb (w : W) (t : array) (n : Q) :
  let c0 := LombScargle_init
              {| ls_t := t; ls_y := Scalar 1; ls_dy := None;
                 ls_normalization := None;
                 ls_fit_mean := Some false; ls_center_data := Some false |} in
  let kw := {| samples_per_peak := Some n; minimum_frequency := Some 0;
               maximum_frequency := None |} in
  window t n =
    Call c0 (fun ls => Call (autopower ls kw) (fun fa => let (f, a) := fa in Ret (f, a))) /\
  run h (window t n) w =
    match h c0 w with
    | (inl e, w1) => (Propagated e, w1, [Entry c0 (inl e)])
    | (inr ls, w1) =>
        match h (autopower ls kw) w1 with
        | (inl e, w2) =>
            (Propagated e, w2,
             [Entry c0 (inr ls); Entry (autopower ls kw) (inl e)])
        | (inr (f, a), w2) =>
            (Returned (f, a), w2,
             [Entry c0 (inr ls); Entry (autopower ls kw) (inr (f, a))])
        end
    end.
Proof.
  cbv zeta. split; [reflexivity|]. apply window_run.
Qed.

Lemma within_lift (P : forall X : Type, libE LS WA X -> Prop) (A : Type)
    (r : pyexn + A) : within P (lift r).
Proof. destruct r; constructor. Qed.

Lemma within_call (P : forall X : Type, libE LS WA X -> Prop) (X : Type)
    (c : libE LS WA X) : P X c -> within P (call c).
Proof. intros HP. constructor; [exact HP|]. intros x. constructor. Qed.

(** One step through a body: reduce up to the next call, check that it is
    one of the calls allowed, and go on with any answer. *)
Ltac within_step :=
  cbn [bind call lift py_assert median_diff];
  match goal with
  | |- within _ (Ret _) => apply within_Ret
  | |- within _ (Raise _) => apply within_Raise
  | |- within _ (Call _ _) =>
      apply within_Call;
      [ cbv beta iota zeta;
        cbn [samples_per_peak minimum_frequency maximum_frequency
             wa_data wa_time wa_dt wa_mask_coi wa_unbias];
        repeat split; eauto
      | intros ? ]
  | |- context [float_truediv ?a ?b] => destruct (float_truediv a b)
  | |- context [known_method ?m] => destruct (known_method m) eqn:?
  | |- context [np_max ?a] => destruct (np_max a)
  | |- within _ (match ?p with (_, _) => _ end) => destruct p
  end.

(** The calls [window] makes. *)
Lemma window_within (t : time_arg) (n : Q) :
  within (@window_calls LS WA t n) (window t n).
Proof. unfold window, window_calls. repeat within_step. Qed.

(** The calls [wavelet] makes. *)
Lemma wavelet_within (t : time_arg) (x : array) (pmin : Q) (pmax : option Q)
    (n_periods : nat) :
  within (@wavelet_calls LS WA t x) (wavelet t x pmin pmax n_periods).
Proof.
  unfold wavelet, wavelet_calls. destruct t as [ts|o]; repeat within_step.
Qed.

(** The calls [lombscargle] makes. *)
Lemma lombscargle_within (t : time_arg) (x : array) (dx : option array)
    (f0 : Q) (fmax : option Q) (n : Q) (fap_method : option string)
    (fap_level : option arraylike) (psd : bool) :
  within (@lombscargle_calls LS WA t x dx f0 fmax n fap_method fap_level psd)
    (lombscargle t x dx f0 fmax n fap_method fap_level psd).
Proof.
  unfold lombscargle, lombscargle_calls, model_args.
  destruct psd, fmax as [v|], t as [ts|o], fap_method as [m|],
    fap_level as [level|]; repeat within_step.
Qed.

(** C7, amended: the wrappers have no error branch but the assertion, and
    no recovery: an exception raised by a call into a library ends the
    wrapper as it was raised, at that call, all earlier calls having
    answered.  The calls are the ones each wrapper makes: the
    constructors, [autopower], the false alarm methods, the wavelet
    properties, and numpy's [np.diff] and [np.median] on a [t] that is not
    a one-dimensional array of numbers.  [window] and [wavelet] fail in
    no other way.  [lombscargle] has two more failures, from its own
    expressions: the division by a zero median interval when [fmax] is
    [None], and numpy's refusal to take the maximum of an empty power
    array when a [fap_method] is given. *)
Theorem wrappers_failures (w : W) (t : time_arg) (x : array)
    (dx : option array) (f0 : Q) (fmax : option Q) (n : Q)
    (fap_method : option string) (fap_level : option arraylike) (psd : bool)
    (pmin : Q) (pmax : option Q) (n_periods : nat) :
  match result_of h (window t n) w with
  | Returned _ => True
  | Raised _ => False
  | Propagated e => raised_at (@window_calls LS WA t n) e
                      (calls_of h (window t n) w)
  end /\
  match result_of h (wavelet t x pmin pmax n_periods) w with
  | Returned _ => True
  | Raised _ => False
  | Propagated e =>
      raised_at (@wavelet_calls LS WA t x) e
        (calls_of h (wavelet t x pmin pmax n_periods) w)
  end /\
  (forall (o : pyobject) (e : E) (w1 : W),
     t = Malformed o -> h (numpy_median_diff o) w = (inl e, w1) ->
     result_of h (wavelet t x pmin pmax n_periods) w = Propagated e /\
     calls_of h (wavelet t x pmin pmax n_periods) w =
       [Entry (numpy_median_diff o) (inl e)]) /\
  let p := lombscargle t x dx f0 fmax n fap_method fap_level psd in
  (forall (o : pyobject) (ls : LS) (e : E) (w1 w2 : W),
     t = Malformed o -> fmax = None ->
     h (LombScargle_init (model_args t x dx psd)) w = (inr ls, w1) ->
     h (numpy_median_diff o) w1 = (inl e, w2) ->
     result_of h p w = Propagated e) /\
  match result_of h p w with
  | Returned _ => True
  | Propagated e =>
      raised_at
        (@lombscargle_calls LS WA t x dx f0 fmax n fap_method fap_level psd)
        e (calls_of h p w)
  | Raised (AssertionError msg) =>
      exists m, fap_method = Some m /\ known_method m = false /\
                msg = ("Unknown FAP method " ++ m)%string
  | Raised (ZeroDivisionError _) =>
      fmax = None /\
      match t with
      | Times ts => float_eq (np_median (np_diff ts)) (Finite 0)
      | Malformed _ => Exists (@zero_median_answer LS WA E) (calls_of h p w)
      end
  | Raised (ValueError _) =>
      fap_method <> None /\ Exists (@empty_power LS WA E) (calls_of h p w)
  end.
Proof.
  split; [|split; [|split; [|split]]].
  - pose proof (run_within h w (window_within t n)) as Hcalls.
    revert Hcalls. unfold result_of, calls_of, window.
    exec h; cbn; auto.
  - pose proof (run_within h w (wavelet_within t x pmin pmax n_periods))
      as Hcalls.
    revert Hcalls. unfold result_of, calls_of, wavelet.
    destruct t as [ts|o]; exec h; cbn; auto.
  - intros o e w1 -> Hnp. unfold result_of, calls_of, wavelet.
    cbn [run bind call median_diff]. rewrite Hnp. split; reflexivity.
  - intros o ls e w1 w2 -> -> Hinit Hnp.
    unfold result_of, lombscargle, model_args in *.
    destruct psd; cbn [run bind call median_diff] in *;
      rewrite Hinit; cbn [run bind call median_diff];
      rewrite Hnp; reflexivity.
  - cbv zeta.
    pose proof (run_within h w
      (lombscargle_within t x dx f0 fmax n fap_method fap_level psd))
      as Hcalls.
    revert Hcalls. unfold result_of, calls_of.
    destruct t as [ts|o].
    + rewrite lombscargle_run.
      run_cases h; cbn [result_of calls_of fst snd]; auto; intros _.
      all: first
        [ apply default_fmax_inl in Hfmax as (-> & -> & Hz);
          split; [reflexivity|exact Hz]
        | match goal with
          | Hmax : np_max ?a = inl _ |- _ =>
              destruct a; [|discriminate]; injection Hmax as <-;
              split; [discriminate|]; right; left; reflexivity
          end
        | eexists; repeat split; exact Hknown ].
    + unfold lombscargle. destruct fmax as [v|].
      * exec h; cbn [fst snd]; auto; intros _.
        all: first
          [ match goal with
            | Hmax : np_max ?a = inl _ |- _ =>
                destruct a; [|discriminate]; injection Hmax as <-;
                split; [discriminate|]; right; left; reflexivity
            end
          | eexists; repeat split; assumption ].
      * exec h; cbn [fst snd]; auto; intros _.
        all: first
          [ match goal with
            | Hdiv : float_truediv (Finite 1) _ = inl _ |- _ =>
                apply float_truediv_inl in Hdiv as [-> Hz];
                split; [reflexivity|]; right; left; exact Hz
            end
          | match goal with
            | Hdiv : float_truediv _ (Finite 2) = inl _ |- _ =>
                rewrite float_truediv_two in Hdiv; discriminate
            end
          | match goal with
            | Hmax : np_max ?a = inl _ |- _ =>
                destruct a; [|discriminate]; injection Hmax as <-;
                split; [discriminate|]; right; right; left; reflexivity
            end
          | eexists; repeat split; assumption ].
Qed.

(** C8, amended: the wrappers keep no state of their own, and what they
    hand to the libraries is what they were given.  Each one stays within
    its calls: the constructor on the arrays as they were passed,
    [autopower], the false alarm methods with the given method and level,
    the wavelet properties.  Whenever the answers of those calls do not
    depend on the libraries' state, two calls with equal arguments return
    equal results from any two states, so whatever was called in between;
    whenever those calls leave the state as it was, so does the wrapper. *)
Theorem wrappers_stateless_through_their_calls (t : time_arg) (x : array)
    (dx : option array) (f0 : Q) (fmax : option Q) (n : Q)
    (fap_method : option string) (fap_level : option arraylike) (psd : bool)
    (pmin : Q) (pmax : option Q) (n_periods : nat) :
  let L := lombscargle t x dx f0 fmax n fap_method fap_level psd in
  let Wi := window t n in
  let Wv := wavelet t x pmin pmax n_periods in
  let CL :=
    @lombscargle_calls LS WA t x dx f0 fmax n fap_method fap_level psd in
  let CWi := @window_calls LS WA t n in
  let CWv := @wavelet_calls LS WA t x in
  (within CL L /\ within CWi Wi /\ within CWv Wv) /\
  (stateless_on h CL ->
   forall w w' : W, result_of h L w = result_of h L w') /\
  (stateless_on h CWi ->
   forall w w' : W, result_of h Wi w = result_of h Wi w') /\
  (stateless_on h CWv ->
   forall w w' : W, result_of h Wv w = result_of h Wv w') /\
  (preserving_on h CL -> forall w : W, state_after h L w = w) /\
  (preserving_on h CWi -> forall w : W, state_after h Wi w = w) /\
  (preserving_on h CWv -> forall w : W, state_after h Wv w = w).
Proof.
  cbv zeta.
  pose proof (lombscargle_within t x dx f0 fmax n fap_method fap_level psd)
    as HL.
  pose proof (window_within t n) as HWi.
  pose proof (wavelet_within t x pmin pmax n_periods) as HWv.
  split; [repeat split; assumption|].
  repeat split; intros Hh.
  - exact (run_stateless HL Hh).
  - exact (run_stateless HWi Hh).
  - exact (run_stateless HWv Hh).
  - exact (run_preserving HL Hh).
  - exact (run_preserving HWi Hh).
  - exact (run_preserving HWv Hh).
Qed.

(** C10: [pmin], [pmax] and [n_periods] have no effect on [wavelet]: for
    any two assignments of them the body, and so the returned tuple
    [(wa, periods, gwps, wps)], is the same.  The analysis is constructed
    with time step [median(diff(t))], and the trial periods are its
    [fourier_periods]. *)
Theorem wavelet_ignores_period_arguments (w : W) (t x : array) (pmin : Q)
    (pmax : option Q) (n_periods : nat) :
  (forall (pmin' : Q) (pmax' : option Q) (n_periods' : nat),
     wavelet (LS := LS) (WA := WA) t x pmin pmax n_periods =
     wavelet t x pmin' pmax' n_periods' /\
     run h (wavelet t x pmin pmax n_periods) w =
     run h (wavelet t x pmin' pmax' n_periods') w) /\
  wavelet (LS := LS) (WA := WA) t x pmin pmax n_periods =
    Call (WaveletAnalysis_init
            {| wa_data := x; wa_time := t; wa_dt := np_median (np_diff t);
               wa_mask_coi := true; wa_unbias := true |})
      (fun wa =>
       Call (fourier_periods wa) (fun periods =>
       Call (wavelet_power wa) (fun wps =>
       Call (global_wavelet_spectrum wa) (fun gwps =>
       Ret (wa, periods, gwps, wps))))).
Proof.
  split; [|reflexivity].
  intros pmin' pmax' n_periods'. split; reflexivity.
Qed.

(** C3 fails on the code: [wavelet] never reads [n_periods].  Whenever a
    call returns trial periods, the call with [n_periods] set to one more
    than their number returns the very same periods, so their number is
    not [n_periods]. *)
Theorem wavelet_periods_not_n_periods (w : W) (t x : array) (pmin : Q)
    (pmax : option Q) (n_periods : nat) (wa : WA) (periods gwps : farray)
    (wps : list farray) :
  result_of h (wavelet t x pmin pmax n_periods) w =
    Returned (wa, periods, gwps, wps) ->
  let n' := S (List.length periods) in
  result_of h (wavelet t x pmin pmax n') w = Returned (wa, periods, gwps, wps) /\
  List.length periods <> n'.
Proof.
  intros Hret n'. split; [exact Hret|]. unfold n'. lia.
Qed.

End WrapperRuns.

(** ** The statements on concrete calls *)

(** [lombscargle_default_fmax] on three evenly spaced samples: the model
    is constructed, the median interval is 1, [autopower] is called. *)
Lemma lombscargle_default_fmax_witness :
  Exists (@is_autopower _ _ _)
    (calls_of Sample.lib
       (lombscargle (Times [0; 1; 2]) [1; 1; 3] None 0 None 5 None None false) 0%nat).
Proof.
  eapply (proj2 (lombscargle_default_fmax Sample.lib 0%nat [0; 1; 2] [1; 1; 3]
                   None 0 5 None None false)).
  - reflexivity.
  - intros H. vm_compute in H. discriminate H.
Defined.



(** [wavelet_periods_not_n_periods] on four samples: asked for 1000 trial
    periods the sample library answers four, and asked for five it
    answers the same four. *)
Lemma wavelet_periods_not_n_periods_witness :
  result_of Sample.lib (wavelet (Times [0; 1; 2; 3]) [1; 0; 1; 0] 0 None 1000) 0%nat =
    Returned
      ({| wa_data := [1; 0; 1; 0]; wa_time := Times [0; 1; 2; 3];
          wa_dt := np_median (np_diff [0; 1; 2; 3]);
          wa_mask_coi := true; wa_unbias := true |},
       [Finite 1; Finite 1; Finite 1; Finite 1],
       [Finite 1; Finite 0; Finite 1; Finite 0],
       [[Finite 1; Finite 0; Finite 1; Finite 0]]) /\
  result_of Sample.lib (wavelet (Times [0; 1; 2; 3]) [1; 0; 1; 0] 0 None 5) 0%nat =
    Returned
      ({| wa_data := [1; 0; 1; 0]; wa_time := Times [0; 1; 2; 3];
          wa_dt := np_median (np_diff [0; 1; 2; 3]);
          wa_mask_coi := true; wa_unbias := true |},
       [Finite 1; Finite 1; Finite 1; Finite 1],
       [Finite 1; Finite 0; Finite 1; Finite 0],
       [[Finite 1; Finite 0; Finite 1; Finite 0]]) /\
  List.length [Finite 1; Finite 1; Finite 1; Finite 1] <> 5%nat.
Proof.
  split; [reflexivity|].
  apply (wavelet_periods_not_n_periods Sample.lib 0%nat [0; 1; 2; 3]
           [1; 0; 1; 0] 0 None 1000). reflexivity.
Defined.

(** [lombscargle_result_shape] on a call with the method "baluev" and no
    level: four components. *)
Lemma lombscargle_result_shape_witness :
  exists (ls : Sample.LS) (f a : farray) (fap : pyfloat),
    result_of Sample.lib
      (lombscargle (Times [0; 1; 2]) [1; 1; 3] None 0 None 5 (Some "baluev"%string)
         None false) 0%nat = Returned (Tuple4 ls f a fap).
Proof.
  destruct (proj1 (lombscargle_result_shape Sample.lib 0%nat [0; 1; 2] [1; 1; 3]
                     None 0 None 5 (Some "baluev"%string) None false)
              _ eq_refl)
    as (ls & f & a & kw & _ & _ & _ & amax & fap & _ & _ & Hr).
  exists ls, f, a, fap. rewrite <- Hr. reflexivity.
Defined.

(** C7 as written fails: with the times [1, 1] and no [fap_method],
    [lombscargle] fails on its own division by the zero median interval:
    an exception that is neither the assertion's nor a library's.  This is
    so for any libraries that construct the model. *)
Lemma wrappers_failures_counterexample :
  result_of Sample.lib
    (lombscargle (Times [1; 1]) [1; 1] None 0 None 5 None None false) 0%nat =
    Raised (ZeroDivisionError "float division by zero") /\
  (forall (LS WA E W : Type) (h : handler LS WA E W) (w w1 : W) (ls : LS),
     h _ (LombScargle_init (model_args (Times [1; 1]) [1; 1] None false)) w = (inr ls, w1) ->
     result_of h (lombscargle (Times [1; 1]) [1; 1] None 0 None 5 None None false) w =
     Raised (ZeroDivisionError "float division by zero")).
Proof.
  split; [reflexivity|].
  intros LS WA E W h w w1 ls Hinit. unfold result_of. rewrite lombscargle_run.
  cbv zeta. rewrite Hinit. reflexivity.
Qed.

Lemma sample_baluev_stateless :
  stateless_on Sample.lib
    (@lombscargle_calls Sample.LS Sample.WA (Times [0; 1; 2]) [1; 1; 3] None 0
       None 5 (Some "baluev"%string) None false).
Proof.
  intros X c w w' Hc.
  destruct c; simpl in *; try reflexivity; try contradiction.
  destruct Hc as [[= <-] _]. reflexivity.
Qed.

(** [wrappers_stateless_through_their_calls] over the sample libraries:
    the calls of [lombscargle] with the method "baluev" do not consult the
    generator, so the call returns the same after a call with the method
    "bootstrap" has moved the generator on. *)
Lemma wrappers_stateless_through_their_calls_witness :
  result_of Sample.lib
    (lombscargle (Times [0; 1; 2]) [1; 1; 3] None 0 None 5
       (Some "baluev"%string) None false)
    (state_after Sample.lib
       (lombscargle (Times [0; 1; 2]) [1; 1; 3] None 0 None 5
          (Some "bootstrap"%string) None false) 0%nat) =
  result_of Sample.lib
    (lombscargle (Times [0; 1; 2]) [1; 1; 3] None 0 None 5
       (Some "baluev"%string) None false) 0%nat.
Proof.
  apply (proj1 (proj2 (wrappers_stateless_through_their_calls Sample.lib
                         (Times [0; 1; 2]) [1; 1; 3] None 0 None 5
                         (Some "baluev"%string) None false 0 None 1000))).
  exact sample_baluev_stateless.
Defined.

(** [wrappers_failures] on a bare number passed as [t]: numpy refuses it in
    [wavelet] before any analysis is constructed, and that exception is
    what the call ends on. *)
Lemma wrappers_failures_witness :
  result_of Sample.lib (wavelet (Malformed (PyNumber 3)) [1; 0; 1] 0 None 1000)
    0%nat =
  Propagated
    "ValueError: diff requires input that is at least one dimensional"%string.
Proof.
  apply (proj1 (proj2 (proj2 (wrappers_failures Sample.lib 0%nat
                         (Malformed (PyNumber 3)) [1; 0; 1] None 0 None 5
                         None None false 0 None 1000)))
           (PyNumber 3) _ 0%nat eq_refl eq_refl).
Defined.

(** C8 as written fails: [lombscargle] hands the false alarm probability
    to the library's method, and the bootstrap method draws from a random
    generator.  Over the sample libraries two calls in a row with the same
    arguments return different probabilities. *)
Lemma wrappers_stateless_counterexample :
  result_of Sample.lib
    (lombscargle (Times [0; 1; 2]) [1; 1; 3] None 0 None 5 (Some "bootstrap"%string)
       None false)
    (state_after Sample.lib
       (lombscargle (Times [0; 1; 2]) [1; 1; 3] None 0 None 5 (Some "bootstrap"%string)
          None false) 0%nat) <>
  result_of Sample.lib
    (lombscargle (Times [0; 1; 2]) [1; 1; 3] None 0 None 5 (Some "bootstrap"%string)
       None false) 0%nat.
Proof. vm_compute. discriminate. Qed.

(** * Further properties *)

(** ** Arrays up to the value of their elements *)

Section MedianValue.

Local Open Scope Q_scope.

Lemma insert_Qeq (x x' : Q) (l l' : array) :
  x == x' -> Forall2 Qeq l l' -> Forall2 Qeq (insert x l) (insert x' l').
Proof.
  intros Hx Hl. induction Hl as [|y y' l l' Hy Hl IH]; simpl.
  - repeat constructor. exact Hx.
  - rewrite (Qleb_comp x x' Hx y y' Hy).
    destruct (Qle_bool x' y'); repeat constructor; assumption.
Qed.

Lemma np_sort_Qeq (a a' : array) :
  Forall2 Qeq a a' -> Forall2 Qeq (np_sort a) (np_sort a').
Proof.
  induction 1 as [|x x' a a' Hx Ha IH]; simpl; [constructor|].
  now apply insert_Qeq.
Qed.

Lemma nth_Qeq (l l' : array) (i : nat) :
  Forall2 Qeq l l' -> nth i l 0 == nth i l' 0.
Proof.
  intros Hl. revert i. induction Hl as [|y y' l l' Hy Hl IH]; intros [|i]; simpl;
    try reflexivity; [exact Hy|apply IH].
Qed.

Lemma Forall2_Qeq_length (l l' : array) :
  Forall2 Qeq l l' -> List.length l = List.length l'.
Proof. induction 1; simpl; congruence. Qed.

(** The median of two arrays of the same values is the same value. *)
Lemma np_median_Qeq (a a' : array) :
  Forall2 Qeq a a' -> float_eq (np_median a) (np_median a').
Proof.
  intros Ha. unfold np_median.
  rewrite <- (Forall2_Qeq_length Ha).
  pose proof (np_sort_Qeq Ha) as Hs.
  destruct (List.length a) as [|k]; [exact I|].
  destruct (Nat.even (S k)); simpl.
  - rewrite (nth_Qeq (S k / 2 - 1) Hs), (nth_Qeq (S k / 2) Hs). reflexivity.
  - apply nth_Qeq, Hs.
Qed.

Lemma np_diff_shift (c : Q) (t : array) :
  Forall2 Qeq (np_diff (shift_times c t)) (np_diff t).
Proof.
  unfold shift_times.
  induction t as [|a [|b t] IH]; try constructor.
  - ring.
  - exact IH.
Qed.

Lemma np_diff_scale (c : Q) (t : array) :
  Forall2 Qeq (np_diff (scale_times c t)) (map (Qmult c) (np_diff t)).
Proof.
  unfold scale_times.
  induction t as [|a [|b t] IH]; try constructor.
  - ring.
  - exact IH.
Qed.

Lemma insert_scale (c x : Q) (l : array) :
  0 < c -> insert (c * x) (map (Qmult c) l) = map (Qmult c) (insert x l).
Proof.
  intros Hc. induction l as [|y l IH]; simpl; [reflexivity|].
  assert (Hle : Qle_bool (c * x) (c * y) = Qle_bool x y).
  { destruct (Qle_bool x y) eqn:Hxy.
    - apply Qle_bool_iff. apply Qmult_le_l; [exact Hc|]. now apply Qle_bool_iff.
    - destruct (Qle_bool (c * x) (c * y)) eqn:Hcxy; [|reflexivity].
      apply Qle_bool_iff in Hcxy. apply Qmult_le_l in Hcxy; [|exact Hc].
      apply Qle_bool_iff in Hcxy. congruence. }
  rewrite Hle. destruct (Qle_bool x y); simpl; [reflexivity|now rewrite IH].
Qed.

Lemma np_sort_scale (c : Q) (a : array) :
  0 < c -> np_sort (map (Qmult c) a) = map (Qmult c) (np_sort a).
Proof.
  intros Hc. induction a as [|x a IH]; simpl; [reflexivity|].
  rewrite IH. now apply insert_scale.
Qed.

Lemma nth_scale (c : Q) (l : array) (i : nat) :
  (i < List.length l)%nat -> nth i (map (Qmult c) l) 0 = c * nth i l 0.
Proof.
  intros Hi. rewrite (nth_indep _ 0 (c * 0)) by now rewrite length_map.
  apply map_nth.
Qed.

(** The median of the array scaled by a positive factor is the scaled
    median. *)
Lemma np_median_scale (c : Q) (a : array) :
  0 < c -> float_scaled c (np_median a) (np_median (map (Qmult c) a)).
Proof.
  intros Hc. unfold np_median. rewrite length_map, (np_sort_scale a Hc).
  destruct (List.length a) as [|k] eqn:Hk; [exact I|].
  assert (Hlen : List.length (np_sort a) = S k)
    by (rewrite np_sort_length; exact Hk).
  assert (Hhalf : (S k / 2 < S k)%nat) by (apply Nat.div_lt; lia).
  destruct (Nat.even (S k)); unfold float_scaled.
  - rewrite !nth_scale by lia. field.
  - rewrite nth_scale by lia. reflexivity.
Qed.

End MedianValue.

(** ** The values the wrappers pass on *)

Section PassedValues.

Variables LS WA E W : Type.
Variable h : handler LS WA E W.

Local Open Scope Q_scope.

Lemma inverse_antitone (a b : Q) : 0 < a -> a <= b -> 1 / b <= 1 / a.
Proof.
  intros Ha Hab. apply Qle_shift_div_l; [exact Ha|].
  setoid_replace (1 / b * a) with (a / b) by (field; lra).
  apply Qle_shift_div_r; lra.
Qed.

Lemma default_fmax_of_median (t : array) (T : Q) :
  np_median (np_diff t) = Finite T -> ~ T == 0 ->
  default_fmax t None = inr (Finite (1 / T / 2)).
Proof.
  intros HT Hnz. unfold default_fmax. rewrite HT. simpl.
  destruct (Qeq_bool T 0) eqn:Hz; [|reflexivity].
  now apply Qeq_bool_eq in Hz.
Qed.

(** Every [autopower] call of [lombscargle] carries the maximum frequency
    of lines 49 to 52; without one, the run has raised before. *)
Lemma lombscargle_passes_default_fmax (w : W) (t x : array)
    (dx : option array) (f0 : Q) (fmax : option Q) (n : Q)
    (fap_method : option string) (fap_level : option arraylike) (psd : bool) :
  let p := lombscargle t x dx f0 fmax n fap_method fap_level psd in
  Forall (autopower_fmax (fun fm => default_fmax t fmax = inr fm))
    (calls_of h p w) /\
  (forall fm, default_fmax t fmax = inr fm ->
     (forall msg, result_of h p w <> Raised (ZeroDivisionError msg)) /\
     (forall (ls : LS) (w1 : W),
        h (LombScargle_init (model_args t x dx psd)) w = (inr ls, w1) ->
        Exists (@is_autopower LS WA E) (calls_of h p w))).
Proof.
  cbv zeta. unfold result_of, calls_of. rewrite lombscargle_run. split.
  - run_cases h; each_entry. all: eexists; split; reflexivity.
  - intros fm Hfm. cbv zeta. rewrite Hfm. split.
    + intros msg. run_cases h; try discriminate.
      all: intros Heq; injection Heq as ->;
        match goal with
        | Hmax : np_max ?a = inl _ |- _ => destruct a; discriminate
        end.
    + intros ls w1 ->. run_cases h; right; left; exact I.
Qed.

(** The run of [lombscargle] with [fmax=None] when the median interval is
    a non-zero [T]. *)
Lemma lombscargle_with_median (P : Q -> Prop) (w : W) (t x : array)
    (dx : option array) (f0 n : Q) (fap_method : option string)
    (fap_level : option arraylike) (psd : bool) (T : Q) :
  np_median (np_diff t) = Finite T -> ~ T == 0 -> P (1 / T / 2) ->
  let p := lombscargle t x dx f0 None n fap_method fap_level psd in
  Forall (autopower_fmax (fun fm => exists q, fm = Finite q /\ P q))
    (calls_of h p w) /\
  (forall msg, result_of h p w <> Raised (ZeroDivisionError msg)) /\
  (forall (ls : LS) (w1 : W),
     h (LombScargle_init (model_args t x dx psd)) w = (inr ls, w1) ->
     Exists (@is_autopower LS WA E) (calls_of h p w)).
Proof.
  intros HT Hnz HP p.
  pose proof (default_fmax_of_median t HT Hnz) as Hfm.
  destruct (lombscargle_passes_default_fmax w t x dx f0 None n fap_method
              fap_level psd) as [Hall Hrun].
  destruct (Hrun _ Hfm) as [Hzde Hcall].
  split; [|split; assumption].
  refine (Forall_impl _ _ Hall). intros e. unfold autopower_fmax.
  destruct (entry_call e); auto.
  intros (fm & Hkw & Hd). exists fm. split; [exact Hkw|].
  rewrite Hfm in Hd. injection Hd as <-. now eexists.
Qed.

(** X1. Uniform sampling: when every sampling interval is [d], not zero, the
    default maximum frequency [lombscargle] passes to [autopower] is the
    Nyquist frequency [1 / (2 d)]; the call does not divide by zero and
    reaches [autopower] once the model is constructed. *)
Theorem lombscargle_uniform_sampling (w : W) (t x : array)
    (dx : option array) (f0 n : Q) (fap_method : option string)
    (fap_level : option arraylike) (psd : bool) (d : Q) :
  (2 <= List.length t)%nat ->
  Forall (fun v => v == d) (np_diff t) ->
  ~ d == 0 ->
  let p := lombscargle t x dx f0 None n fap_method fap_level psd in
  Forall (autopower_fmax
            (fun fm => exists q, fm = Finite q /\ q == 1 / (2 * d)))
    (calls_of h p w) /\
  (forall msg, result_of h p w <> Raised (ZeroDivisionError msg)) /\
  (forall (ls : LS) (w1 : W),
     h (LombScargle_init (model_args t x dx psd)) w = (inr ls, w1) ->
     Exists (@is_autopower LS WA E) (calls_of h p w)).
Proof.
  intros Hlen Hd Hnz.
  destruct (np_median_Forall (P := fun v => v == d) (a := np_diff t))
    as (T & HT & HTd).
  - intros u v -> ->. field.
  - exact Hd.
  - now apply np_diff_nonempty.
  - apply lombscargle_with_median with (T := T); try assumption.
    + now rewrite HTd.
    + rewrite HTd. field. exact Hnz.
Qed.

(** X2. Bounds: when every sampling interval lies between [lo] and [hi], with
    [lo] positive, the default maximum frequency passed to [autopower] lies
    between [1 / (2 hi)] and [1 / (2 lo)]. *)
Theorem lombscargle_default_fmax_bounds (w : W) (t x : array)
    (dx : option array) (f0 n : Q) (fap_method : option string)
    (fap_level : option arraylike) (psd : bool) (lo hi : Q) :
  (2 <= List.length t)%nat ->
  0 < lo ->
  Forall (fun v => lo <= v <= hi) (np_diff t) ->
  let p := lombscargle t x dx f0 None n fap_method fap_level psd in
  Forall (autopower_fmax
            (fun fm => exists q, fm = Finite q /\
                                 1 / (2 * hi) <= q <= 1 / (2 * lo)))
    (calls_of h p w) /\
  (forall msg, result_of h p w <> Raised (ZeroDivisionError msg)) /\
  (forall (ls : LS) (w1 : W),
     h (LombScargle_init (model_args t x dx psd)) w = (inr ls, w1) ->
     Exists (@is_autopower LS WA E) (calls_of h p w)).
Proof.
  intros Hlen Hlo Hd.
  destruct (np_median_Forall (P := fun v => lo <= v <= hi) (a := np_diff t))
    as (T & HT & HTlo & HThi).
  - intros u v [Hu1 Hu2] [Hv1 Hv2]. split.
    + apply Qle_shift_div_l; [reflexivity|]. lra.
    + apply Qle_shift_div_r; [reflexivity|]. lra.
  - exact Hd.
  - now apply np_diff_nonempty.
  - assert (HTpos : 0 < T) by lra.
    assert (Hhi : 0 < hi) by lra.
    apply lombscargle_with_median with (T := T); try assumption.
    + intros Hz. rewrite Hz in HTpos. now apply Qlt_irrefl in HTpos.
    + assert (Hq : 1 / T / 2 == 1 / (2 * T)) by (field; lra).
      rewrite Hq. split; apply inverse_antitone; lra.
Qed.


Lemma np_diff_decreasing (t : array) :
  strictly_decreasing t -> Forall (fun d => d < 0) (np_diff t).
Proof.
  unfold strictly_decreasing.
  induction t as [|a [|b t] IH]; intros Hs; try constructor.
  - inversion Hs as [|? ? Hs' Hhd]; subst.
    inversion Hhd as [|? ? Hab]; subst. lra.
  - apply IH. now inversion Hs.
Qed.

(** X3. No check of the time order: for strictly decreasing times the median
    interval is negative, [lombscargle] computes a negative default
    maximum frequency and calls [autopower] with it. *)
Theorem lombscargle_decreasing_times (w : W) (t x : array)
    (dx : option array) (f0 n : Q) (fap_method : option string)
    (fap_level : option arraylike) (psd : bool) :
  (2 <= List.length t)%nat ->
  strictly_decreasing t ->
  let p := lombscargle t x dx f0 None n fap_method fap_level psd in
  Forall (autopower_fmax (fun fm => exists q, fm = Finite q /\ q < 0))
    (calls_of h p w) /\
  (forall msg, result_of h p w <> Raised (ZeroDivisionError msg)) /\
  (forall (ls : LS) (w1 : W),
     h (LombScargle_init (model_args t x dx psd)) w = (inr ls, w1) ->
     Exists (@is_autopower LS WA E) (calls_of h p w)).
Proof.
  intros Hlen Hdec.
  destruct (np_median_Forall (P := fun v => v < 0) (a := np_diff t))
    as (T & HT & HTneg).
  - intros u v Hu Hv. apply Qlt_shift_div_r; [reflexivity|]. lra.
  - now apply np_diff_decreasing.
  - now apply np_diff_nonempty.
  - apply lombscargle_with_median with (T := T); try assumption.
    + intros Hz. rewrite Hz in HTneg. now apply Qlt_irrefl in HTneg.
    + assert (Hq : 1 / T / 2 == - (1 / (2 * - T))) by (field; lra).
      rewrite Hq.
      assert (0 < 1 / (2 * - T)) by (apply Qlt_shift_div_l; lra).
      lra.
Qed.

(** Every [WaveletAnalysis] that [wavelet] constructs gets the median
    sampling interval as its time step. *)
Lemma wavelet_passes_dt (w : W) (t x : array) (pmin : Q) (pmax : option Q)
    (n_periods : nat) :
  Forall (analysis_dt (fun dt => dt = np_median (np_diff t)))
    (calls_of h (wavelet t x pmin pmax n_periods) w).
Proof.
  unfold calls_of. rewrite wavelet_run.
  run_cases h; repeat first [apply Forall_nil | apply Forall_cons];
    first [exact I | reflexivity].
Qed.

Lemma analysis_dt_impl (P P' : pyfloat -> Prop) (calls : list (entry LS WA E)) :
  (forall dt, P dt -> P' dt) ->
  Forall (analysis_dt P) calls -> Forall (analysis_dt P') calls.
Proof.
  intros HP. apply Forall_impl. intros e. unfold analysis_dt.
  destruct (entry_call e); auto.
Qed.

Lemma autopower_fmax_impl (P P' : pyfloat -> Prop)
    (calls : list (entry LS WA E)) :
  (forall fm, P fm -> P' fm) ->
  Forall (autopower_fmax P) calls -> Forall (autopower_fmax P') calls.
Proof.
  intros HP. apply Forall_impl. intros e. unfold autopower_fmax.
  destruct (entry_call e); auto.
  intros (fm & Hkw & Hfm). exists fm. auto.
Qed.

(** X9. The time step of [wavelet]: positive for strictly increasing times,
    [nan] for fewer than two samples, zero when all of two or more
    samples are at one time; and in no case does [wavelet] raise by
    itself, where [lombscargle] divides by that zero. *)
Theorem wavelet_time_step (w : W) (t x : array) (pmin : Q) (pmax : option Q)
    (n_periods : nat) :
  let p := wavelet t x pmin pmax n_periods in
  (strictly_increasing t -> (2 <= List.length t)%nat ->
   Forall (analysis_dt (fun dt => exists T, dt = Finite T /\ 0 < T))
     (calls_of h p w)) /\
  ((List.length t < 2)%nat ->
   Forall (analysis_dt (fun dt => dt = NaN)) (calls_of h p w)) /\
  (all_times_equal t -> (2 <= List.length t)%nat ->
   Forall (analysis_dt (fun dt => float_eq dt (Finite 0))) (calls_of h p w)) /\
  (forall e, result_of h p w <> Raised e).
Proof.
  cbv zeta. pose proof (wavelet_passes_dt w t x pmin pmax n_periods) as Hdt.
  split; [|split; [|split]].
  - intros Hinc Hlen. refine (analysis_dt_impl _ _ Hdt). intros dt ->.
    apply np_median_Forall.
    + exact mean_pos.
    + now apply np_diff_increasing.
    + now apply np_diff_nonempty.
  - intros Hlen. refine (analysis_dt_impl _ _ Hdt). intros dt ->.
    now rewrite (np_diff_short t Hlen).
  - intros Heq Hlen. refine (analysis_dt_impl _ _ Hdt). intros dt ->.
    destruct (np_median_Forall (P := fun d => d == 0) (a := np_diff t))
      as (T & -> & Hz).
    + exact mean_zero.
    + exact Heq.
    + now apply np_diff_nonempty.
    + exact Hz.
  - intros e. unfold result_of. rewrite wavelet_run.
    run_cases h; discriminate.
Qed.

Lemma float_eq_sym (a b : pyfloat) : float_eq a b -> float_eq b a.
Proof. destruct a, b; simpl; auto. intros H. now symmetry. Qed.

Lemma float_eq_zero (a b : pyfloat) :
  float_eq a b -> float_eq a (Finite 0) -> float_eq b (Finite 0).
Proof.
  destruct a, b; simpl; auto; try contradiction.
  intros <-. auto.
Qed.

(** The default maximum frequency depends on the times only through the
    value of the median interval. *)
Lemma default_fmax_Qeq (t t' : array) :
  float_eq (np_median (np_diff t')) (np_median (np_diff t)) ->
  (divides_by_zero t' <-> divides_by_zero t) /\
  (forall fm', default_fmax t' None = inr fm' ->
     exists fm, default_fmax t None = inr fm /\ float_eq fm' fm).
Proof.
  intros Heq. split.
  - unfold divides_by_zero. rewrite !float_truediv_zero.
    split; apply float_eq_zero; [exact Heq|now apply float_eq_sym].
  - unfold default_fmax.
    destruct (np_median (np_diff t')) as [T'|];
      destruct (np_median (np_diff t)) as [T|]; simpl in *; try contradiction.
    + assert (Hb : Qeq_bool T' 0 = Qeq_bool T 0).
      { destruct (Qeq_bool T 0) eqn:HT.
        - apply Qeq_eq_bool. rewrite Heq. now apply Qeq_bool_eq.
        - destruct (Qeq_bool T' 0) eqn:HT'; [|reflexivity].
          apply Qeq_bool_eq in HT'. rewrite Heq in HT'.
          apply Qeq_eq_bool in HT'. congruence. }
      rewrite Hb. destruct (Qeq_bool T 0); [discriminate|].
      intros fm' [= <-]. eexists. split; [reflexivity|].
      simpl. now rewrite Heq.
    + intros fm' [= <-]. now exists NaN.
Qed.

(** X4. Moving the time origin changes neither the time step [wavelet] passes
    nor the default maximum frequency [lombscargle] passes, nor whether
    that default divides by zero. *)
Theorem time_origin_invariance (w : W) (c : Q) (t x : array)
    (dx : option array) (f0 n : Q) (fap_method : option string)
    (fap_level : option arraylike) (psd : bool) (pmin : Q) (pmax : option Q)
    (n_periods : nat) :
  Forall (analysis_dt (fun dt => float_eq dt (np_median (np_diff t))))
    (calls_of h (wavelet (shift_times c t) x pmin pmax n_periods) w) /\
  Forall (autopower_fmax
            (fun fm' => exists fm, default_fmax t None = inr fm /\
                                   float_eq fm' fm))
    (calls_of h
       (lombscargle (shift_times c t) x dx f0 None n fap_method fap_level psd)
       w) /\
  (divides_by_zero (shift_times c t) <-> divides_by_zero t).
Proof.
  assert (Hmed : float_eq (np_median (np_diff (shift_times c t)))
                          (np_median (np_diff t)))
    by apply np_median_Qeq, np_diff_shift.
  destruct (default_fmax_Qeq _ _ Hmed) as [Hz Hfm].
  split; [|split].
  - refine (analysis_dt_impl _ _ (wavelet_passes_dt w _ x pmin pmax n_periods)).
    now intros dt ->.
  - refine (autopower_fmax_impl _ _
              (proj1 (lombscargle_passes_default_fmax w _ x dx f0 None n
                        fap_method fap_level psd))).
    exact Hfm.
  - exact Hz.
Qed.


Lemma median_diff_scaled (c : Q) (t : array) :
  0 < c ->
  float_scaled c (np_median (np_diff t)) (np_median (np_diff (scale_times c t))).
Proof.
  intros Hc.
  pose proof (np_median_scale (np_diff t) Hc) as Hs.
  pose proof (np_median_Qeq (np_diff_scale c t)) as He.
  destruct (np_median (np_diff t)) as [T|];
    destruct (np_median (map (Qmult c) (np_diff t))) as [T1|];
    destruct (np_median (np_diff (scale_times c t))) as [T2|];
    simpl in *; try contradiction; auto.
  now rewrite He.
Qed.

Lemma default_fmax_scaled (c : Q) (t t' : array) :
  0 < c ->
  float_scaled c (np_median (np_diff t)) (np_median (np_diff t')) ->
  (divides_by_zero t' <-> divides_by_zero t) /\
  (forall fm', default_fmax t' None = inr fm' ->
     exists fm, default_fmax t None = inr fm /\ float_scaled c fm' fm).
Proof.
  intros Hc Hs. unfold divides_by_zero. rewrite !float_truediv_zero.
  unfold default_fmax.
  destruct (np_median (np_diff t)) as [T|];
    destruct (np_median (np_diff t')) as [T'|]; simpl in *; try contradiction.
  - assert (Hz : T' == 0 <-> T == 0).
    { split; intros H0.
      - rewrite H0 in Hs.
        destruct (Qeq_dec T 0) as [|Hn]; [assumption|].
        assert (Hm : c * T * / c == 0) by (rewrite <- Hs; ring).
        rewrite <- Hm. field. lra.
      - rewrite Hs, H0. ring. }
    split; [exact Hz|].
    destruct (Qeq_bool T' 0) eqn:HT'; [discriminate|].
    apply Qeq_bool_neq in HT'.
    destruct (Qeq_bool T 0) eqn:HT.
    { apply Qeq_bool_eq in HT. now apply Hz in HT. }
    apply Qeq_bool_neq in HT.
    intros fm' [= <-]. eexists. split; [reflexivity|].
    simpl. rewrite Hs. field. split; [exact HT|lra].
  - split; [tauto|]. intros fm' [= <-]. now exists NaN.
Qed.

(** X5. Changing the unit of time: with all times multiplied by [c > 0], the
    time step [wavelet] passes is multiplied by [c], the default maximum
    frequency [lombscargle] passes is divided by [c], and the default
    divides by zero for the scaled times exactly when it does for the
    original ones. *)
Theorem time_unit_scaling (w : W) (c : Q) (t x : array)
    (dx : option array) (f0 n : Q) (fap_method : option string)
    (fap_level : option arraylike) (psd : bool) (pmin : Q) (pmax : option Q)
    (n_periods : nat) :
  0 < c ->
  Forall (analysis_dt (fun dt' => float_scaled c (np_median (np_diff t)) dt'))
    (calls_of h (wavelet (scale_times c t) x pmin pmax n_periods) w) /\
  Forall (autopower_fmax
            (fun fm' => exists fm, default_fmax t None = inr fm /\
                                   float_scaled c fm' fm))
    (calls_of h
       (lombscargle (scale_times c t) x dx f0 None n fap_method fap_level psd)
       w) /\
  (divides_by_zero (scale_times c t) <-> divides_by_zero t).
Proof.
  intros Hc.
  pose proof (median_diff_scaled t Hc) as Hmed.
  destruct (default_fmax_scaled _ _ Hc Hmed) as [Hz Hfm].
  split; [|split].
  - refine (analysis_dt_impl _ _ (wavelet_passes_dt w _ x pmin pmax n_periods)).
    now intros dt ->.
  - refine (autopower_fmax_impl _ _
              (proj1 (lombscargle_passes_default_fmax w _ x dx f0 None n
                        fap_method fap_level psd))).
    exact Hfm.
  - exact Hz.
Qed.

End PassedValues.

(** ** The false alarm calls of [lombscargle] *)

Section FalseAlarm.

Variables LS WA E W : Type.
Variable h : handler LS WA E W.

Local Open Scope Q_scope.

Lemma Qmax_cases (u v : Q) :
  (Qmax u v = u \/ Qmax u v = v) /\ u <= Qmax u v /\ v <= Qmax u v.
Proof.
  split; [|split; [apply Q.le_max_l|apply Q.le_max_r]].
  unfold Qmax, GenericMinMax.gmax. destruct (u ?= v); auto.
Qed.

Lemma float_max_finite (u v : pyfloat) (q : Q) :
  float_max u v = Finite q ->
  exists a b, u = Finite a /\ v = Finite b /\ q = Qmax a b.
Proof.
  destruct u as [a|], v as [b|]; simpl; try discriminate.
  intros [= <-]. now exists a, b.
Qed.

Lemma fold_left_float_max (rest : farray) (v : pyfloat) :
  match fold_left float_max rest v with
  | Finite q =>
      (v = Finite q \/ In (Finite q) rest) /\
      at_most q v /\ Forall (at_most q) rest
  | NaN => v = NaN \/ In NaN rest
  end.
Proof.
  revert v. induction rest as [|u rest IH]; intros v; simpl.
  - destruct v as [q|]; [|now left].
    repeat split; [now left|apply Qle_refl|constructor].
  - specialize (IH (float_max v u)).
    destruct (fold_left float_max rest (float_max v u)) as [q|].
    + destruct IH as (Hin & Hle & Hall).
      destruct (float_max v u) as [m|] eqn:Hm; [|contradiction].
      apply float_max_finite in Hm as (a & b & -> & -> & ->).
      destruct (Qmax_cases a b) as (Hc & Ha & Hb). simpl in Hle.
      split; [|split].
      * destruct Hin as [[= <-]|Hin]; [|now right; right].
        destruct Hc as [->| ->]; [now left|now right; left].
      * simpl. now apply Qle_trans with (Qmax a b).
      * constructor; [|exact Hall].
        simpl. now apply Qle_trans with (Qmax a b).
    + destruct IH as [Hm|Hin]; [|now right; right].
      destruct v as [a|]; [|now left].
      destruct u as [b|]; [discriminate|now right; left].
Qed.

(** [a.max()] is [nan] when [a] holds a [nan]; otherwise it is an element
    of [a] that no element exceeds. *)
Lemma np_max_spec (a : farray) (m : pyfloat) :
  np_max a = inr m ->
  match m with
  | Finite q => In (Finite q) a /\ Forall (at_most q) a
  | NaN => In NaN a
  end.
Proof.
  destruct a as [|v rest]; simpl; [discriminate|]. intros [= <-].
  pose proof (fold_left_float_max rest v) as H.
  destruct (fold_left float_max rest v) as [q|].
  - destruct H as (Hin & Hle & Hall).
    split; [|constructor; assumption].
    destruct Hin as [->|Hin]; [now left|now right].
  - destruct H as [->|Hin]; [now left|now right].
Qed.

(** X6. The false alarm calls follow the periodogram: each one is made on the
    model [lombscargle] constructed, names the method given as
    [fap_method], which is "baluev" or "bootstrap", and carries the very
    frequency keywords of an [autopower] call of the run that answered:
    [samples_per_peak=n], [minimum_frequency=f0] and the same maximum
    frequency.  A [false_alarm_level] call asks for the given
    [fap_level]; without a [fap_method] there is no false alarm call. *)
Theorem lombscargle_false_alarm_calls (w : W) (t x : array)
    (dx : option array) (f0 : Q) (fmax : option Q) (n : Q)
    (fap_method : option string) (fap_level : option arraylike) (psd : bool) :
  let calls :=
    calls_of h (lombscargle t x dx f0 fmax n fap_method fap_level psd) w in
  Forall (on_false_alarm (fun ls m kw =>
            fap_method = Some m /\ known_method m = true /\
            In (Entry (LombScargle_init (model_args t x dx psd)) (inr ls)) calls /\
            (exists fa, In (Entry (autopower ls kw) (inr fa)) calls) /\
            samples_per_peak kw = Some n /\ minimum_frequency kw = Some f0))
    calls /\
  Forall (on_level (fun level => fap_level = Some level)) calls /\
  (fap_method = None -> Forall (fun e => ~ is_false_alarm e) calls).
Proof.
  cbv zeta. unfold calls_of. rewrite lombscargle_run.
  split; [|split].
  - run_cases h; each_entry.
    all: repeat split; try assumption; simpl; eauto.
  - run_cases h; each_entry. all: reflexivity.
  - intros ->. run_cases h; each_entry; tauto.
Qed.

(** X7. The power that the false alarm probability is asked for is
    [a.max()] of the power array that [autopower] answered on the same
    model with the same keywords: the highest peak, an element of the
    array that no element exceeds, when the array holds no [nan]; and
    [nan] when the array holds one. *)
Theorem lombscargle_false_alarm_of_highest_peak (w : W) (t x : array)
    (dx : option array) (f0 : Q) (fmax : option Q) (n : Q)
    (fap_method : option string) (fap_level : option arraylike) (psd : bool) :
  let calls :=
    calls_of h (lombscargle t x dx f0 fmax n fap_method fap_level psd) w in
  Forall (on_probability (fun ls power kw =>
            exists f a, In (Entry (autopower ls kw) (inr (f, a))) calls /\
                        match power with
                        | Finite q => In (Finite q) a /\ Forall (at_most q) a
                        | NaN => In NaN a
                        end))
    calls.
Proof.
  cbv zeta. unfold calls_of. rewrite lombscargle_run.
  run_cases h; each_entry.
  all: match goal with
       | Hmax : np_max ?a = inr _ |- _ =>
           pose proof (np_max_spec _ Hmax) as Hspec
       end.
  all: eexists _, _; split; [right; left; reflexivity|exact Hspec].
Qed.

(** X8. Where [lombscargle] fails by itself, and what it has done by then.
    The division by a zero median interval comes after the model has
    been constructed and before [autopower].  The assertion on the
    method name, and numpy's refusal of an empty power array, come after
    [autopower] has answered: the periodogram is computed before the
    method name is looked at.  No false alarm call has been made in
    either case. *)
Theorem lombscargle_failure_points (w : W) (t x : array)
    (dx : option array) (f0 : Q) (fmax : option Q) (n : Q)
    (fap_method : option string) (fap_level : option arraylike) (psd : bool) :
  let p := lombscargle t x dx f0 fmax n fap_method fap_level psd in
  let c0 := LombScargle_init (model_args t x dx psd) in
  match result_of h p w with
  | Raised (ZeroDivisionError _) =>
      exists ls, calls_of h p w = [Entry c0 (inr ls)]
  | Raised (AssertionError _) | Raised (ValueError _) =>
      exists ls kw fa,
        calls_of h p w = [Entry c0 (inr ls); Entry (autopower ls kw) (inr fa)]
  | _ => True
  end.
Proof.
  cbv zeta. unfold result_of, calls_of. rewrite lombscargle_run.
  run_cases h; try exact I.
  all: first
    [ apply default_fmax_inl in Hfmax as (_ & -> & _); now eexists
    | match goal with
      | Hmax : np_max ?a = inl _ |- _ =>
          destruct a; [|discriminate]; injection Hmax as <-;
          eexists _, _, _; reflexivity
      end
    | eexists _, _, _; reflexivity ].
Qed.

(** X11. An explicit [fmax] goes to the library as it is: every [autopower]
    and false alarm call carries [maximum_frequency=fmax].  The times are
    then handed to the constructor and looked at nowhere else, so the call
    cannot divide by zero, whatever the times are. *)
Theorem lombscargle_explicit_fmax (w : W) (x : array) (dx : option array)
    (f0 v n : Q) (fap_method : option string) (fap_level : option arraylike)
    (psd : bool) :
  (forall t : array,
     let p := lombscargle t x dx f0 (Some v) n fap_method fap_level psd in
     Forall (on_frequency_kwargs
               (fun kw => maximum_frequency kw = Some (Finite v)))
       (calls_of h p w) /\
     forall msg, result_of h p w <> Raised (ZeroDivisionError msg)) /\
  exists k : LS -> prog LS WA (ls_result LS),
    forall t : array,
      lombscargle t x dx f0 (Some v) n fap_method fap_level psd =
      Call (LombScargle_init (model_args t x dx psd)) k.
Proof.
  split.
  - intros t. cbv zeta. unfold result_of, calls_of. rewrite lombscargle_run.
    change (default_fmax t (Some v)) with (@inr pyexn pyfloat (Finite v)).
    split.
    + run_cases h; each_entry. all: reflexivity.
    + intros msg. run_cases h; try discriminate.
      all: intros Heq; injection Heq as ->;
        match goal with
        | Hmax : np_max ?a = inl _ |- _ => destruct a; discriminate
        end.
  - unfold lombscargle, model_args. destruct psd; eexists; intros t;
      cbn [bind call]; reflexivity.
Qed.

End FalseAlarm.

(** ** The median as an order statistic *)

Section MedianOrder.

Local Open Scope Q_scope.

Lemma insert_perm (x : Q) (l : array) : Permutation (insert x l) (x :: l).
Proof.
  induction l as [|y l IH]; simpl; [reflexivity|].
  destruct (Qle_bool x y); [reflexivity|].
  rewrite IH. apply perm_swap.
Qed.

Lemma np_sort_perm (a : array) : Permutation (np_sort a) a.
Proof.
  induction a as [|x a IH]; simpl; [reflexivity|].
  rewrite insert_perm. now constructor.
Qed.

Lemma insert_sorted (x : Q) (l : array) :
  StronglySorted Qle l -> StronglySorted Qle (insert x l).
Proof.
  induction 1 as [|y l Hs IH Hy]; simpl.
  - repeat constructor.
  - destruct (Qle_bool x y) eqn:Hxy.
    + apply Qle_bool_iff in Hxy. constructor; [now constructor|].
      constructor; [exact Hxy|].
      refine (Forall_impl _ _ Hy). intros u Hu. now apply Qle_trans with y.
    + assert (Hyx : y <= x).
      { destruct (Qlt_le_dec y x) as [Hlt|Hle]; [now apply Qlt_le_weak|].
        apply Qle_bool_iff in Hle. congruence. }
      constructor; [exact IH|].
      apply Forall_forall. intros u Hu.
      apply (Permutation_in _ (insert_perm x l)) in Hu.
      destruct Hu as [<-|Hu]; [exact Hyx|].
      rewrite Forall_forall in Hy. now apply Hy.
Qed.

Lemma np_sort_sorted (a : array) : StronglySorted Qle (np_sort a).
Proof.
  induction a as [|x a IH]; simpl; [constructor|]. now apply insert_sorted.
Qed.

Lemma filter_length_perm (f : Q -> bool) (l l' : array) :
  Permutation l l' -> List.length (filter f l) = List.length (filter f l').
Proof.
  induction 1 as [|x l l' _ IH|x y l|l l' l'' _ IH1 _ IH2]; simpl.
  - reflexivity.
  - destruct (f x); simpl; congruence.
  - destruct (f x), (f y); reflexivity.
  - congruence.
Qed.

Lemma count_le_sorted (T : Q) (s : array) (k : nat) :
  StronglySorted Qle s -> (k < List.length s)%nat -> nth k s 0 <= T ->
  (k + 1 <= count_le T s)%nat.
Proof.
  unfold count_le. intros Hs. revert k.
  induction Hs as [|y s Hs IH Hy]; intros k Hk HT; simpl in *; [lia|].
  destruct k as [|k].
  - apply Qle_bool_iff in HT. rewrite HT. simpl. lia.
  - assert (Hk' : (k < List.length s)%nat) by lia.
    specialize (IH k Hk' HT).
    assert (HyT : y <= T).
    { apply Qle_trans with (nth k s 0); [|exact HT].
      rewrite Forall_forall in Hy. apply Hy. now apply nth_In. }
    apply Qle_bool_iff in HyT. rewrite HyT. simpl. lia.
Qed.

Lemma count_ge_all (T : Q) (s : array) :
  Forall (Qle T) s -> count_ge T s = List.length s.
Proof.
  unfold count_ge. induction 1 as [|y s Hy Hs IH]; simpl; [reflexivity|].
  apply Qle_bool_iff in Hy. rewrite Hy. simpl. now rewrite IH.
Qed.

Lemma count_ge_sorted (T : Q) (s : array) (k : nat) :
  StronglySorted Qle s -> (k < List.length s)%nat -> T <= nth k s 0 ->
  (List.length s - k <= count_ge T s)%nat.
Proof.
  intros Hs. revert k.
  induction Hs as [|y s Hs IH Hy]; intros k Hk HT; simpl in *; [lia|].
  destruct k as [|k].
  - rewrite (@count_ge_all T (y :: s)); [simpl; lia|].
    constructor; [exact HT|].
    refine (Forall_impl _ _ Hy). intros u Hu. now apply Qle_trans with y.
  - assert (Hk' : (k < List.length s)%nat) by lia.
    specialize (IH k Hk' HT). unfold count_ge in *. simpl.
    destruct (Qle_bool T y); simpl; lia.
Qed.

Lemma sorted_nth_le (s : array) (i j : nat) :
  StronglySorted Qle s -> (i <= j)%nat -> (j < List.length s)%nat ->
  nth i s 0 <= nth j s 0.
Proof.
  intros Hs. revert i j.
  induction Hs as [|y s Hs IH Hy]; intros i j Hij Hj; simpl in *; [lia|].
  destruct i as [|i], j as [|j]; try lia.
  - apply Qle_refl.
  - rewrite Forall_forall in Hy. apply Hy. apply nth_In. lia.
  - apply IH; lia.
Qed.

(** X10. The median interval is a median: at least half of the elements are at
    most [T], and at least half are at least [T]. *)
Theorem np_median_is_median (a : array) :
  a <> [] ->
  exists T, np_median a = Finite T /\
            (List.length a <= 2 * count_le T a)%nat /\
            (List.length a <= 2 * count_ge T a)%nat.
Proof.
  intros Hne.
  pose proof (np_sort_sorted a) as Hs.
  pose proof (np_sort_perm a) as Hp.
  pose proof (np_sort_length a) as Hlen.
  assert (Hcount : forall T, count_le T a = count_le T (np_sort a) /\
                             count_ge T a = count_ge T (np_sort a)).
  { intros T. unfold count_le, count_ge.
    split; apply filter_length_perm; symmetry; exact Hp. }
  enough (exists T, np_median a = Finite T /\
            (List.length a <= 2 * count_le T (np_sort a))%nat /\
            (List.length a <= 2 * count_ge T (np_sort a))%nat)
    as (T & HT & Hle & Hge).
  { exists T. destruct (Hcount T) as [-> ->]. auto. }
  clear Hcount Hp.
  unfold np_median. revert Hs Hlen. generalize (np_sort a). intros s Hs Hlen.
  destruct (List.length a) as [|k] eqn:Hk.
  { destruct a; [now elim Hne|discriminate]. }
  assert (Hhalf : (S k / 2 < S k)%nat) by (apply Nat.div_lt; lia).
  pose proof (Nat.div_mod_eq (S k) 2) as Hdm.
  destruct (Nat.even (S k)) eqn:Hev.
  - apply Nat.even_spec in Hev. destruct Hev as [m Hm].
    assert (Hidx : (S k / 2 = m)%nat).
    { rewrite Hm, Nat.mul_comm. apply Nat.div_mul. lia. }
    rewrite Hidx in *.
    assert (Hord : nth (m - 1) s 0 <= nth m s 0)
      by (apply sorted_nth_le; [exact Hs|lia|lia]).
    eexists. split; [reflexivity|]. split.
    + pose proof (@count_le_sorted ((nth (m - 1) s 0 + nth m s 0) / 2) s (m - 1) Hs)
        as Hc.
      assert (Hle : nth (m - 1) s 0 <= (nth (m - 1) s 0 + nth m s 0) / 2)
        by (apply Qle_shift_div_l; [reflexivity|lra]).
      specialize (Hc ltac:(lia) Hle). lia.
    + pose proof (@count_ge_sorted ((nth (m - 1) s 0 + nth m s 0) / 2) s m Hs)
        as Hc.
      assert (Hge : (nth (m - 1) s 0 + nth m s 0) / 2 <= nth m s 0)
        by (apply Qle_shift_div_r; [reflexivity|lra]).
      specialize (Hc ltac:(lia) Hge). lia.
  - assert (Hodd : Nat.odd (S k) = true)
      by (unfold Nat.odd; now rewrite Hev).
    apply Nat.odd_spec in Hodd. destruct Hodd as [m Hm].
    assert (Hidx : (S k / 2 = m)%nat).
    { symmetry. apply (Nat.div_unique (S k) 2 m 1); lia. }
    rewrite Hidx in *.
    eexists. split; [reflexivity|]. split.
    + pose proof (@count_le_sorted (nth m s 0) s m Hs ltac:(lia) (Qle_refl _))
        as Hc. lia.
    + pose proof (@count_ge_sorted (nth m s 0) s m Hs ltac:(lia) (Qle_refl _))
        as Hc. lia.
Qed.

End MedianOrder.

(** ** The further properties on concrete calls *)

Lemma lombscargle_uniform_sampling_witness :
  Forall (autopower_fmax
            (fun fm => exists q, fm = Finite q /\ q == 1 / (2 * (1 # 2))))
    (calls_of Sample.lib
       (lombscargle (Times [0; 1 # 2; 1]) [1; 1; 3] None 0 None 5 None None false)
       0%nat).
Proof.
  apply (lombscargle_uniform_sampling Sample.lib 0%nat [0; 1 # 2; 1] [1; 1; 3]
           None 0 5 None None false (d := 1 # 2)).
  - simpl. lia.
  - repeat constructor; reflexivity.
  - intros H. discriminate H.
Defined.

Lemma lombscargle_default_fmax_bounds_witness :
  Forall (autopower_fmax
            (fun fm => exists q, fm = Finite q /\
                                 1 / (2 * 3) <= q <= 1 / (2 * 1)))
    (calls_of Sample.lib
       (lombscargle (Times [0; 1; 4; 6]) [1; 1; 3; 2] None 0 None 5 None None false)
       0%nat).
Proof.
  apply (lombscargle_default_fmax_bounds Sample.lib 0%nat [0; 1; 4; 6]
           [1; 1; 3; 2] None 0 5 None None false (lo := 1) (hi := 3)).
  - simpl. lia.
  - reflexivity.
  - repeat constructor; discriminate.
Defined.

Lemma lombscargle_decreasing_times_witness :
  Forall (autopower_fmax (fun fm => exists q, fm = Finite q /\ q < 0))
    (calls_of Sample.lib
       (lombscargle (Times [3; 2; 0]) [1; 1; 3] None 0 None 5 None None false) 0%nat).
Proof.
  apply (lombscargle_decreasing_times Sample.lib 0%nat (t := [3; 2; 0])
           [1; 1; 3] None 0 5 None None false).
  - simpl. lia.
  - repeat constructor.
Defined.

Lemma time_unit_scaling_witness :
  divides_by_zero (scale_times 24 [1; 1; 1]) <-> divides_by_zero [1; 1; 1].
Proof.
  apply (time_unit_scaling Sample.lib 0%nat (c := 24) [1; 1; 1] [1; 1; 3]
           None 0 5 None None false 0 None 1000).
  reflexivity.
Defined.

Lemma np_median_is_median_witness :
  exists T, np_median [5; 1; 4; 1] = Finite T /\
            (4 <= 2 * count_le T [5; 1; 4; 1]%Q)%nat /\
            (4 <= 2 * count_ge T [5; 1; 4; 1]%Q)%nat.
Proof.
  apply (np_median_is_median (a := [5; 1; 4; 1])). discriminate.
Defined.
